(** * CBETA Buddhist metadata analyzer: classification pipeline

    Shallow embedding of [CBETA_Sorting_Data/analyze_buddhist_metadata.py]:
    the static keyword tables, the three classifier functions, the metadata
    extractor over an ElementTree element, and the corpus walker.

    Data model.
    - A Python [str] is a [string] holding the UTF-8 encoding of the text (the
      way Rocq reads a literal such as "禪").  UTF-8 is self-synchronising: on
      well-formed text a needle occurs as a run of code points exactly when
      its encoding occurs as a run of bytes, so [x in y] is byte containment.
    - Python's [set] is a [gset string], a [dict] a [gmap string _]; the
      keyword tables are ordered lists because a dict literal is iterated in
      insertion order.
    - The builtins [str.lower] and [str.strip] belong to the language, not to
      the repository: they are the two methods of the class [StrMethods].
      Everything proved for all instances holds for Python's own methods; the
      instance [ascii_str] runs the code on concrete documents. *)

From Stdlib Require Import Ascii String List Bool Arith Lia.
From stdpp Require Import base gmap strings list fin_maps fin_sets.

Local Open Scope string_scope.
Local Open Scope list_scope.

(** ** Python string primitives *)

Module Str.

(** [needle in hay] on [str]. *)
Fixpoint contains (needle hay : string) : bool :=
  String.prefix needle hay ||
  match hay with
  | EmptyString => false
  | String _ rest => contains needle rest
  end.

(** [sep.join(parts)]. *)
Definition join (sep : string) (parts : list string) : string :=
  String.concat sep parts.

(** [any(word in text for word in words)]. *)
Definition any_in (words : list string) (text : string) : bool :=
  existsb (fun word => contains word text) words.

(** Truthiness of a [str]: only the empty string is falsy. *)
Definition truthy (s : string) : bool :=
  match s with EmptyString => false | String _ _ => true end.

Definition is_ascii_upper (c : ascii) : bool :=
  let n := nat_of_ascii c in (65 <=? n)%nat && (n <=? 90)%nat.

(** The text matched by the regular expression [[A-Z]+] anchored at the
    start of [s]: the longest leading run of ASCII capitals. *)
Fixpoint upper_run (s : string) : string :=
  match s with
  | String c rest =>
      if is_ascii_upper c then String c (upper_run rest) else EmptyString
  | EmptyString => EmptyString
  end.

(** [re.match(r'^([A-Z]+)', s)]: [None] when the run is empty, otherwise
    the match object, represented by its group 1. *)
Definition match_upper (s : string) : option string :=
  match upper_run s with
  | EmptyString => None
  | run => Some run
  end.

(** [s.split(sep)] for a one-character separator such as [os.sep]. *)
Fixpoint split_acc (sep : ascii) (cur : string) (s : string) : list string :=
  match s with
  | EmptyString => [cur]
  | String c rest =>
      if Ascii.eqb c sep
      then cur :: split_acc sep EmptyString rest
      else split_acc sep (cur ++ String c EmptyString) rest
  end.

Definition split (sep : ascii) (s : string) : list string :=
  split_acc sep EmptyString s.

Definition ascii_lower_char (c : ascii) : ascii :=
  if is_ascii_upper c then ascii_of_nat (nat_of_ascii c + 32) else c.

Fixpoint map_chars (f : ascii -> ascii) (s : string) : string :=
  match s with
  | EmptyString => EmptyString
  | String c rest => String (f c) (map_chars f rest)
  end.

(** White space of the ASCII range as [str.strip] sees it:
    tab, LF, VT, FF, CR, FS, GS, RS, US and the space. *)
Definition is_ascii_space (c : ascii) : bool :=
  let n := nat_of_ascii c in
  ((9 <=? n)%nat && (n <=? 13)%nat) || ((28 <=? n)%nat && (n <=? 32)%nat).

Fixpoint lstrip (s : string) : string :=
  match s with
  | String c rest => if is_ascii_space c then lstrip rest else s
  | EmptyString => EmptyString
  end.

Fixpoint rstrip (s : string) : string :=
  match s with
  | EmptyString => EmptyString
  | String c rest =>
      match rstrip rest with
      | EmptyString => if is_ascii_space c then EmptyString else String c EmptyString
      | kept => String c kept
      end
  end.

End Str.

(** The two [str] methods the program calls. *)
Class StrMethods := {
  lower : string -> string;
  strip : string -> string
}.

(** [str.lower] and [str.strip] restricted to text whose cased letters and
    white space are ASCII; CJK text has neither case nor ASCII bytes. *)
Definition ascii_str : StrMethods := {|
  lower := Str.map_chars Str.ascii_lower_char;
  strip := fun s => Str.rstrip (Str.lstrip s)
|}.

(** ** Static keyword tables *)

(** [TRADITION_CLASSIFICATIONS]: label to keyword list, in insertion order. *)
Definition TRADITION_CLASSIFICATIONS : list (string * list string) :=
  [ ("Chan/Zen", ["禪"; "禅"; "chan"; "zen"; "曹洞"; "臨濟"; "雲門"; "潙仰"; "法眼"]);
    ("Pure Land", ["淨土"; "净土"; "净土宗"; "淨土宗"; "蓮社"; "念佛法門"; "阿彌陀"]);
    ("Tiantai", ["天台"; "法華"; "止觀"; "智者"; "天台宗"]);
    ("Huayan", ["華嚴"; "华严"; "賢首"; "法藏"; "澄觀"]);
    ("Vinaya", ["律"; "毗奈耶"; "戒律"; "四分律"; "五分律"; "摩訶僧祇律"]);
    ("Madhyamaka", ["中觀"; "中論"; "龍樹"; "提婆"; "三論"]);
    ("Yogacara", ["瑜伽"; "唯識"; "瑜伽行派"; "無著"; "世親"; "成唯識"]);
    ("Esoteric", ["密"; "密教"; "陀羅尼"; "真言"; "壇城"; "曼荼羅"]);
    ("Pure Precepts", ["菩薩戒"; "梵網經"; "心地戒"]);
    ("Pali/Theravada", ["南傳"; "巴利"; "Theravāda"; "尼柯耶"; "律藏"]);
    ("Tibetan", ["藏傳"; "西藏"; "Tibetan"; "甘珠爾"; "丹珠爾"]);
    ("Commentarial", ["註"; "疏"; "記"; "釋"; "解"; "論"; "鈔"]);
    ("Historical", ["史"; "傳"; "誌"; "錄"; "譜"]);
    ("Liturgical", ["儀軌"; "法事"; "懺"; "儀"; "課誦"]) ].

(** [DYNASTY_PERIODS]: label to keyword set.  The inner sets are only ever
    scanned for "does any member occur", which no enumeration order can
    change (see [any_in_Permutation]); they are listed as written. *)
Definition DYNASTY_PERIODS : list (string * list string) :=
  [ ("Pre-Tang", ["漢"; "魏"; "晉"; "南北朝"; "劉宋"; "南齊"; "梁"; "陳"; "北魏"; "北齊"; "北周"; "隋"]);
    ("Tang", ["唐"]);
    ("Song", ["宋"; "北宋"; "南宋"]);
    ("Yuan", ["元"]);
    ("Ming", ["明"]);
    ("Qing", ["清"]);
    ("Modern", ["民國"; "中華民國"; "現代"]);
    ("Contemporary", ["當代"]) ].

(** [GEOGRAPHIC_ORIGINS]. *)
Definition GEOGRAPHIC_ORIGINS : list (string * list string) :=
  [ ("India", ["印度"; "天竺"; "中天竺"; "北天竺"; "南天竺"; "西天"]);
    ("Central Asia", ["西域"; "中亞"; "龜茲"; "于闐"; "高昌"]);
    ("China", ["中國"; "漢地"; "中土"; "大唐"; "大宋"; "大元"; "大明"; "大清"]);
    ("Korea", ["高麗"; "新羅"; "百濟"; "朝鮮"]);
    ("Japan", ["日本"; "倭"]);
    ("Southeast Asia", ["南海"; "扶南"; "真臘"; "林邑"]) ].

(** ** Classifier *)

Section Classifier.
Context `{StrMethods}.

(** The text the tradition classifier searches:
    [' '.join(titles + [author] + [source]).lower()]. *)
Definition tradition_text (titles : list string) (author source : string) : string :=
  lower (Str.join " " (titles ++ [author] ++ [source])).

(** The inner loop of [classify_tradition]: does some keyword of the entry,
    lowered, occur in the lowered text. *)
Definition tradition_hit (text_content : string) (keywords : list string) : bool :=
  existsb (fun keyword => Str.contains (lower keyword) text_content) keywords.

(** The outer loop: the set built over the table. *)
Fixpoint tradition_loop (table : list (string * list string))
         (text_content : string) (traditions : gset string) : gset string :=
  match table with
  | [] => traditions
  | (tradition, keywords) :: rest =>
      tradition_loop rest text_content
        (if tradition_hit text_content keywords
         then {[ tradition ]} ∪ traditions else traditions)
  end.

Definition classify_tradition (titles : list string) (author source : string)
  : list string :=
  let traditions :=
    tradition_loop TRADITION_CLASSIFICATIONS (tradition_text titles author source) ∅ in
  if decide (traditions = ∅) then ["General/Unspecified"] else elements traditions.

(** The text the period and origin classifiers search:
    [' '.join([author, source] + titles)], case untouched. *)
Definition plain_text (author source : string) (titles : list string) : string :=
  Str.join " " ([author; source] ++ titles).

(** The nested [for] loops with [return] of [classify_period] and
    [classify_geographic]: the label of the first entry one of whose
    keywords occurs in the text. *)
Fixpoint scan_table (table : list (string * list string)) (text_content : string)
  : option string :=
  match table with
  | [] => None
  | (label, keywords) :: rest =>
      if Str.any_in keywords text_content then Some label
      else scan_table rest text_content
  end.

Definition classify_period (author source : string) (titles : list string) : string :=
  let text_content := plain_text author source titles in
  match scan_table DYNASTY_PERIODS text_content with
  | Some period => period
  | None =>
      if Str.any_in ["民國"; "中華民國"; "現代"] text_content then "Modern"
      else if Str.any_in ["當代"; "現代"] text_content then "Contemporary"
      else if Str.contains "釋" author
              && Str.any_in ["唐"; "宋"; "元"; "明"; "清"] text_content
      then "Traditional Chinese Buddhism"
      else "Unknown Period"
  end.

Definition classify_geographic (author source : string) (titles : list string) : string :=
  let text_content := plain_text author source titles in
  match scan_table GEOGRAPHIC_ORIGINS text_content with
  | Some region => region
  | None => "Unknown Origin"
  end.

End Classifier.

(** ** JSON values and the canon registry *)

(** What [json.load] can return.  Numbers keep their lexeme: no arithmetic is
    done on them. *)
#[warnings="-register-all"]
Inductive json : Type :=
| JNull
| JBool (b : bool)
| JInt (lexeme : string)
| JFloat (lexeme : string)
| JString (s : string)
| JArray (items : list json)
| JObject (fields : gmap string json).

(** The message of the [AttributeError] raised by [v.get] when [v] is not a
    dict; [None] when [v] is one. *)
Definition no_get_attribute (v : json) : option string :=
  let msg (ty : string) := Some ("'" ++ ty ++ "' object has no attribute 'get'")%string in
  match v with
  | JNull => msg "NoneType"
  | JBool _ => msg "bool"
  | JInt _ => msg "int"
  | JFloat _ => msg "float"
  | JString _ => msg "str"
  | JArray _ => msg "list"
  | JObject _ => None
  end.

(** ** ElementTree elements *)

(** [xml.etree.ElementTree.Element] as the program reads it: tag, attribute
    dict, leading text and children. *)
#[warnings="-register-all"]
Inductive Element : Type :=
| mkElement (tag : string) (attrib : gmap string string)
            (text : option string) (children : list Element).

Module ET.

Definition tag (e : Element) : string :=
  match e with mkElement t _ _ _ => t end.
Definition attrib (e : Element) : gmap string string :=
  match e with mkElement _ a _ _ => a end.
Definition text (e : Element) : option string :=
  match e with mkElement _ _ t _ => t end.
Definition children (e : Element) : list Element :=
  match e with mkElement _ _ _ c => c end.

(** [elem.get(key, default)]. *)
Definition get (e : Element) (key default : string) : string :=
  match attrib e !! key with Some v => v | None => default end.

(** [elem.iter()]: the element and its descendants in document order. *)
Fixpoint iter (e : Element) : list Element :=
  match e with
  | mkElement _ _ _ kids => e :: flat_map iter kids
  end.

(** Clark notation [{uri}local], the form in which the parser stores every
    qualified name and in which ElementPath rewrites a prefixed step. *)
Definition clark (uri local : string) : string :=
  ("{" ++ uri ++ "}" ++ local)%string.

Definition TEI_NS : string := "http://www.tei-c.org/ns/1.0".
Definition XML_NS : string := "http://www.w3.org/XML/1998/namespace".

(** The step [//tei:name] of a path: proper descendants carrying the tag. *)
Definition descendants (name : string) (context : list Element) : list Element :=
  flat_map (fun elem =>
    List.filter (fun e => String.eqb (tag e) (clark TEI_NS name))
                (flat_map iter (children elem))) context.

(** The step [/tei:name]: children carrying the tag. *)
Definition child (name : string) (context : list Element) : list Element :=
  flat_map (fun elem =>
    List.filter (fun e => String.eqb (tag e) (clark TEI_NS name)) (children elem))
           context.

(** [elem.text] used as a condition: neither [None] nor empty. *)
Definition text_truthy (e : Element) : bool :=
  match text e with Some s => Str.truthy s | None => false end.

Definition text_or_empty (e : Element) : string :=
  match text e with Some s => s | None => EmptyString end.

End ET.

(** ** Records of the pipeline *)

Module Metadata.
(** The dict returned by a successful [extract_metadata]. *)
Record t : Type := mk {
  xml_id : string;
  canon_code : option string;
  canon_name : json;
  titles : list string;
  author : string;
  source : string;
  file_path : string
}.
End Metadata.

(** The two shapes of the dict [extract_metadata] returns: the metadata, or
    [{'error': str(e)}]. *)
Inductive extraction : Type :=
| Extracted (metadata : Metadata.t)
| ExtractionError (reason : string).

Module CanonGroup.
(** A value of [results['by_canon']]: file list and three [Counter]s. *)
Record t : Type := mk {
  files : list string;
  traditions : gmap string nat;
  periods : gmap string nat;
  origins : gmap string nat
}.
Definition empty : t := mk [] ∅ ∅ ∅.
End CanonGroup.

Module Detail.
(** An item of [results['detailed_analysis']]. *)
Record t : Type := mk {
  file : string;
  canon : option string;
  canon_name : json;
  traditions : list string;
  period : string;
  origin : string;
  author : string;
  main_title : string
}.
End Detail.

Module Results.
Record t : Type := mk {
  summary : gmap string nat;
  by_canon : gmap string CanonGroup.t;
  by_tradition : gmap string (list string);
  by_period : gmap string (list string);
  by_origin : gmap string (list string);
  detailed_analysis : list Detail.t
}.
Definition empty : t := mk ∅ ∅ ∅ ∅ ∅ [].
End Results.

(** The variables of the loop in [analyze_buddhist_metadata]. *)
Record walker : Type := mkWalker {
  processed : nat;
  results : Results.t
}.

(** [counter[key] += 1] on a [Counter]. *)
Definition counter_incr (key : string) (counter : gmap string nat) : gmap string nat :=
  <[ key := S (default 0 (counter !! key)) ]> counter.

(** [index[key].append(path)] on a [defaultdict(list)]. *)
Definition index_append (key path : string) (index : gmap string (list string))
  : gmap string (list string) :=
  <[ key := default [] (index !! key) ++ [path] ]> index.

(** The four updates of [results['by_canon'][canon_code]]: the path is
    appended to the group's files, and the traditions, the period and the
    origin are tallied.  A code absent so far starts from the default group. *)
Definition canon_update (code path : string) (traditions : list string)
           (period origin : string) (by_canon : gmap string CanonGroup.t)
  : gmap string CanonGroup.t :=
  let g := default CanonGroup.empty (by_canon !! code) in
  <[ code := CanonGroup.mk
       (CanonGroup.files g ++ [path])
       (fold_left (fun c tradition => counter_incr tradition c)
                  traditions (CanonGroup.traditions g))
       (counter_incr period (CanonGroup.periods g))
       (counter_incr origin (CanonGroup.origins g)) ]> by_canon.

(** Truthiness of an optional [str]: [None] and the empty string are falsy. *)
Definition code_truthy (code : option string) : bool :=
  match code with Some c => Str.truthy c | None => false end.

(** ** Extractor and walker *)

Section Pipeline.
Context `{StrMethods}.

(** The platform and the file system: [os.sep], and what [ET.parse(path)]
    followed by [getroot()] does for each path, either raising an exception
    (given by its [str]) or returning the root element. *)
Variable os_sep : ascii.
Variable ET_parse : string -> string + Element.

Definition extract_metadata (xml_file_path : string) (canon_info : gmap string json)
  : extraction :=
  match ET_parse xml_file_path with
  | inl e => ExtractionError e
  | inr root =>
      let xml_id := ET.get root "xml:id" EmptyString in
      let from_id :=
        if Str.truthy xml_id then Str.match_upper xml_id else None in
      let canon_code :=
        if code_truthy from_id then from_id
        else List.find (fun part => bool_decide (is_Some (canon_info !! part)))
                       (Str.split os_sep xml_file_path) in
      let titles :=
        map (fun title => strip (ET.text_or_empty title))
            (List.filter ET.text_truthy (ET.descendants "title" [root])) in
      let first_text (found : list Element) :=
        match found with
        | elem :: _ => if ET.text_truthy elem then strip (ET.text_or_empty elem) else EmptyString
        | [] => EmptyString
        end in
      let author := first_text (ET.descendants "author" [root]) in
      let source := first_text (ET.child "bibl" (ET.descendants "sourceDesc" [root])) in
      let canon_name :=
        match canon_code with
        | Some code =>
            if Str.truthy code then
              let entry := default (JObject ∅) (canon_info !! code) in
              match entry with
              | JObject fields => inr (default (JString code) (fields !! "title-zh"))
              | other => inl (default EmptyString (no_get_attribute other))
              end
            else inr (JString "Unknown")
        | None => inr (JString "Unknown")
        end in
      match canon_name with
      | inl e => ExtractionError e
      | inr name =>
          Extracted (Metadata.mk xml_id canon_code name titles author source xml_file_path)
      end
  end.

Variable canon_info : gmap string json.

(** One turn of the [for xml_file in xml_files] loop. *)
Definition loop_body (w : walker) (xml_file : string) : walker :=
  let processed := S (processed w) in
  match extract_metadata xml_file canon_info with
  | ExtractionError _ => mkWalker processed (results w)
  | Extracted metadata =>
      let r := results w in
      let path := Metadata.file_path metadata in
      let traditions :=
        classify_tradition (Metadata.titles metadata) (Metadata.author metadata)
                           (Metadata.source metadata) in
      let period :=
        classify_period (Metadata.author metadata) (Metadata.source metadata)
                        (Metadata.titles metadata) in
      let origin :=
        classify_geographic (Metadata.author metadata) (Metadata.source metadata)
                            (Metadata.titles metadata) in
      let canon_code := Metadata.canon_code metadata in
      let by_canon :=
        if code_truthy canon_code
        then canon_update (default EmptyString canon_code) path traditions period origin
                          (Results.by_canon r)
        else Results.by_canon r in
      let by_tradition :=
        fold_left (fun index tradition => index_append tradition path index)
                  traditions (Results.by_tradition r) in
      let by_period := index_append period path (Results.by_period r) in
      let by_origin := index_append origin path (Results.by_origin r) in
      let detail :=
        Detail.mk path canon_code (Metadata.canon_name metadata) traditions period
                  origin (Metadata.author metadata)
                  (match Metadata.titles metadata with
                   | title :: _ => title
                   | [] => EmptyString
                   end) in
      mkWalker processed
        (Results.mk (Results.summary r) by_canon by_tradition by_period by_origin
                    (Results.detailed_analysis r ++ [detail]))
  end.

(** The state after the loop has run over [xml_files]. *)
Definition walk (xml_files : list string) : walker :=
  fold_left loop_body xml_files (mkWalker 0 Results.empty).

Definition analyze_buddhist_metadata (xml_files : list string) : Results.t :=
  let r := results (walk xml_files) in
  Results.mk
    (list_to_map
       [ ("total_files", length xml_files);
         ("canons_found", size (Results.by_canon r));
         ("traditions_found", size (Results.by_tradition r));
         ("periods_found", size (Results.by_period r));
         ("origins_found", size (Results.by_origin r)) ])
    (Results.by_canon r) (Results.by_tradition r) (Results.by_period r)
    (Results.by_origin r) (Results.detailed_analysis r).

End Pipeline.

(** ** The classifier written from the specification *)

(** [classify_period] as the table scan alone: the label of the first table
    entry with a keyword in the text, [Unknown Period] when there is none. *)
Definition classify_period_simple (author source : string) (titles : list string)
  : string :=
  default "Unknown Period" (scan_table DYNASTY_PERIODS (plain_text author source titles)).

(** All keywords of a table, in table order. *)
Definition table_keywords (table : list (string * list string)) : list string :=
  flat_map snd table.

(** Entry [k] of [table] carries [label] and is the first entry with a keyword
    occurring in [text]. *)
Definition first_match (table : list (string * list string)) (text : string)
           (k : nat) (label : string) : Prop :=
  exists keywords,
    table !! k = Some (label, keywords) /\
    Str.any_in keywords text = true /\
    forall k' label' keywords',
      (k' < k)%nat -> table !! k' = Some (label', keywords') ->
      Str.any_in keywords' text = false.

(** First match wins at entries [i] and a later one labelled [lj]: [result] is
    the label of the first matching entry, which lies at or before [i]; it is
    not the later entry's label; and it is [li] when nothing before [i]
    matches. *)
Definition lower_entry_wins (table : list (string * list string)) (text : string)
           (i : nat) (li lj : string) (result : string) : Prop :=
  (exists k, (k <= i)%nat /\ first_match table text k result) /\
  result <> lj /\
  ((forall k' label' keywords',
      (k' < i)%nat -> table !! k' = Some (label', keywords') ->
      Str.any_in keywords' text = false) ->
   result = li).

(** Some keyword of the tradition table matches the text the way
    [classify_tradition] tests it: lowered keyword inside the lowered text. *)
Definition tradition_keyword_matches `{StrMethods} (text_content : string) : Prop :=
  exists tradition keywords keyword,
    In (tradition, keywords) TRADITION_CLASSIFICATIONS /\
    In keyword keywords /\
    Str.contains (lower keyword) text_content = true.

(** ** Where a path is attributed in the results *)

Definition in_index (index : gmap string (list string)) (key path : string) : Prop :=
  exists paths, index !! key = Some paths /\ In path paths.

Definition in_by_canon (r : Results.t) (code path : string) : Prop :=
  exists g, Results.by_canon r !! code = Some g /\ In path (CanonGroup.files g).

Definition in_details (r : Results.t) (path : string) : Prop :=
  exists d, In d (Results.detailed_analysis r) /\ Detail.file d = path.

(** [path] occurs in one of the four grouping indices or in a detail record. *)
Definition attributed (r : Results.t) (path : string) : Prop :=
  (exists code, in_by_canon r code path) \/
  (exists tradition, in_index (Results.by_tradition r) tradition path) \/
  (exists period, in_index (Results.by_period r) period path) \/
  (exists origin, in_index (Results.by_origin r) origin path) \/
  in_details r path.

Definition is_error (x : extraction) : bool :=
  match x with ExtractionError _ => true | Extracted _ => false end.

(** The counters the walker keeps: its variable [processed], or a number read
    off [results]. *)
Definition walker_counter (counter : walker -> nat) : Prop :=
  counter = processed \/
  exists c : Results.t -> nat, counter = (fun w => c (results w)).

(** [counter] counts the skipped documents: a turn of the loop advances it by
    one when extraction fails and leaves it alone otherwise. *)
Definition counts_skips `{StrMethods} (os_sep : ascii)
           (ET_parse : string -> string + Element) (canon_info : gmap string json)
           (counter : walker -> nat) : Prop :=
  forall w xml_file,
    counter (loop_body os_sep ET_parse canon_info w xml_file) =
    if is_error (extract_metadata os_sep ET_parse xml_file canon_info)
    then S (counter w) else counter w.

(** The detail record the walker files for an extracted document. *)
Definition detail_record `{StrMethods} (m : Metadata.t) : Detail.t :=
  Detail.mk (Metadata.file_path m) (Metadata.canon_code m) (Metadata.canon_name m)
    (classify_tradition (Metadata.titles m) (Metadata.author m) (Metadata.source m))
    (classify_period (Metadata.author m) (Metadata.source m) (Metadata.titles m))
    (classify_geographic (Metadata.author m) (Metadata.source m) (Metadata.titles m))
    (Metadata.author m)
    (match Metadata.titles m with title :: _ => title | [] => EmptyString end).


(** ** A small corpus *)

Module Sample.

Definition tei (name : string) (attrib : gmap string string) (text : option string)
           (children : list Element) : Element :=
  mkElement (ET.clark ET.TEI_NS name) attrib text children.

Definition header : Element :=
  tei "teiHeader" ∅ None
    [ tei "fileDesc" ∅ None
        [ tei "titleStmt" ∅ None
            [ tei "title" ∅ (Some "六祖壇經") [];
              tei "author" ∅ (Some "釋宗寶") [] ];
          tei "sourceDesc" ∅ None
            [ tei "bibl" ∅ (Some "宋") [] ] ] ].

(** What the parser returns for a document opening with
    [<TEI xmlns="http://www.tei-c.org/ns/1.0" xml:id="T0001_foo">]:
    the attribute is filed under its expanded name. *)
Definition root_T0001 : Element :=
  tei "TEI" {[ ET.clark ET.XML_NS "id" := "T0001_foo" ]} None [header].

(** The same element with the attribute filed under the literal key
    [xml:id], as only a tree built by hand can have it. *)
Definition root_literal_id : Element :=
  tei "TEI" {[ "xml:id" := "T0001_foo" ]} None [header].

(** A document that declares no identifier. *)
Definition root_anonymous : Element := tei "TEI" ∅ None [header].

Definition registry : gmap string json :=
  {[ "T" := JObject {[ "title-zh" := JString "大正新脩大藏經" ]} ]}.

(** The registry of the specification's example: the entry is a string. *)
Definition flat_registry : gmap string json := {[ "T" := JString "Taishō" ]}.

Definition fs (path : string) : string + Element :=
  if String.eqb path "doc.xml" then inr root_T0001
  else if String.eqb path "T/T01/doc.xml" then inr root_T0001
  else if String.eqb path "built.xml" then inr root_literal_id
  else if String.eqb path "misc/anonymous.xml" then inr root_anonymous
  else if String.eqb path "bad.xml" then inl "syntax error: line 1, column 0"
  else inl "[Errno 2] No such file or directory".

End Sample.

(** ** Saving and reporting *)

Module Saved.
(** A value of the saved [by_tradition], [by_period] and [by_origin]. *)
Record group : Type := mkGroup {
  file_count : nat;
  files : list string
}.
(** A value of the saved [by_canon]. *)
Record canon : Type := mkCanon {
  canon_file_count : nat;
  traditions : gmap string nat;
  periods : gmap string nat;
  origins : gmap string nat;
  sample_files : list string
}.
Record t : Type := mk {
  summary : gmap string nat;
  by_canon : gmap string canon;
  by_tradition : gmap string group;
  by_period : gmap string group;
  by_origin : gmap string group;
  detailed_analysis : list Detail.t
}.
End Saved.

(** [{'file_count': len(v), 'files': v[:10]}]. *)
Definition save_group (v : list string) : Saved.group :=
  Saved.mkGroup (List.length v) (take 10 v).

(** The five fields saved for a canon group, with the first 5 files as
    samples. *)
Definition save_canon (v : CanonGroup.t) : Saved.canon :=
  Saved.mkCanon (List.length (CanonGroup.files v)) (CanonGroup.traditions v)
                (CanonGroup.periods v) (CanonGroup.origins v)
                (take 5 (CanonGroup.files v)).

(** The dict [serializable_results] that [save_buddhist_analysis] hands to
    [json.dump]. *)
Definition serializable_results (r : Results.t) : Saved.t :=
  Saved.mk (Results.summary r)
           (save_canon <$> Results.by_canon r)
           (save_group <$> Results.by_tradition r)
           (save_group <$> Results.by_period r)
           (save_group <$> Results.by_origin r)
           (take 100 (Results.detailed_analysis r)).

(** The loops of [generate_sorting_recommendations] over the saved periods
    and origins: [count = len(data['files'])], and a line is printed for the
    group when [count] exceeds the threshold (50 for periods, 10 for
    origins).  [sorted_items] is the sorted item list of the loaded dict. *)
Definition listed_groups (threshold : nat) (sorted_items : list (string * Saved.group))
  : list (string * nat) :=
  omap (fun item =>
          let count := List.length (Saved.files (snd item)) in
          if (threshold <? count)%nat then Some (fst item, count) else None)
       sorted_items.

(** The sum of the tallies of a [Counter]. *)
Definition counter_total (counter : gmap string nat) : nat :=
  map_fold (fun _ n total => (n + total)%nat) 0%nat counter.

(** The condition under which [print_buddhist_summary] replaces
    [most_common(1)[0]] by [('Unknown', 0)]: a falsy, that is empty,
    traditions counter. *)
Definition top_tradition_unknown (canon_data : CanonGroup.t) : bool :=
  bool_decide (CanonGroup.traditions canon_data = ∅).

(** ** The corpus as the walker sees it *)

(** The metadata of the documents that extract, in corpus order. *)
Definition extracted_documents `{StrMethods} (os_sep : ascii)
           (ET_parse : string -> string + Element) (canon_info : gmap string json)
           (xml_files : list string) : list Metadata.t :=
  omap (fun xml_file =>
          match extract_metadata os_sep ET_parse xml_file canon_info with
          | Extracted m => Some m
          | ExtractionError _ => None
          end) xml_files.

(** The entry an index holds for a key: the paths of the documents that
    belong under it, in corpus order, and no entry when there is none. *)
Definition group_paths (belongs : Metadata.t -> bool) (docs : list Metadata.t)
  : option (list string) :=
  match map Metadata.file_path (List.filter belongs docs) with
  | [] => None
  | paths => Some paths
  end.

Definition period_of (m : Metadata.t) : string :=
  classify_period (Metadata.author m) (Metadata.source m) (Metadata.titles m).

Definition origin_of (m : Metadata.t) : string :=
  classify_geographic (Metadata.author m) (Metadata.source m) (Metadata.titles m).

Definition traditions_of `{StrMethods} (m : Metadata.t) : list string :=
  classify_tradition (Metadata.titles m) (Metadata.author m) (Metadata.source m).

(** The tallies kept for a canon group agree with its file list. *)
Definition canon_group_consistent (g : CanonGroup.t) : Prop :=
  (0 < List.length (CanonGroup.files g))%nat /\
  counter_total (CanonGroup.periods g) = List.length (CanonGroup.files g) /\
  counter_total (CanonGroup.origins g) = List.length (CanonGroup.files g) /\
  (List.length (CanonGroup.files g) <= counter_total (CanonGroup.traditions g))%nat.

(** ** Keywords that decide nothing *)

(** [DYNASTY_PERIODS] without the keywords that contain another keyword of
    their own entry. *)
Definition DYNASTY_PERIODS_effective : list (string * list string) :=
  [ ("Pre-Tang", ["漢"; "魏"; "晉"; "南北朝"; "劉宋"; "南齊"; "梁"; "陳"; "北齊"; "北周"; "隋"]);
    ("Tang", ["唐"]);
    ("Song", ["宋"]);
    ("Yuan", ["元"]);
    ("Ming", ["明"]);
    ("Qing", ["清"]);
    ("Modern", ["民國"; "現代"]);
    ("Contemporary", ["當代"]) ].

(** [GEOGRAPHIC_ORIGINS] without the keywords that contain another keyword
    of their own entry. *)
Definition GEOGRAPHIC_ORIGINS_effective : list (string * list string) :=
  [ ("India", ["印度"; "天竺"; "西天"]);
    ("Central Asia", ["西域"; "中亞"; "龜茲"; "于闐"; "高昌"]);
    ("China", ["中國"; "漢地"; "中土"; "大唐"; "大宋"; "大元"; "大明"; "大清"]);
    ("Korea", ["高麗"; "新羅"; "百濟"; "朝鮮"]);
    ("Japan", ["日本"; "倭"]);
    ("Southeast Asia", ["南海"; "扶南"; "真臘"; "林邑"]) ].

(** A keyword that is not empty and holds no space: it cannot match across
    the spaces that [join] puts between the fields. *)
Definition field_keyword (keyword : string) : bool :=
  Str.truthy keyword && negb (Str.contains " " keyword).

(** ** Facts about the string primitives and the table scan *)

Section ScanFacts.

Lemma any_in_app (ws ws' : list string) (text : string) :
  Str.any_in (ws ++ ws') text = Str.any_in ws text || Str.any_in ws' text.
Proof. unfold Str.any_in. apply existsb_app. Qed.

Lemma any_in_false (ws : list string) (text : string) :
  Str.any_in ws text = false <->
  forall w, In w ws -> Str.contains w text = false.
Proof.
  unfold Str.any_in. induction ws as [|w ws IH]; simpl.
  - split; [intros _ w [] | reflexivity].
  - rewrite orb_false_iff, IH. split.
    + intros [Hw Hws] w' [<-|Hin]; auto.
    + intros Hall. split; [apply Hall; now left | intros w' Hin; apply Hall; now right].
Qed.

Lemma any_in_true (ws : list string) (text : string) :
  Str.any_in ws text = true <->
  exists w, In w ws /\ Str.contains w text = true.
Proof. unfold Str.any_in. apply existsb_exists. Qed.

(** The enumeration order of a keyword set is immaterial. *)
Lemma any_in_Permutation (ws ws' : list string) (text : string) :
  Permutation ws ws' -> Str.any_in ws text = Str.any_in ws' text.
Proof.
  intros Hp. apply eq_true_iff_eq. rewrite !any_in_true.
  split; intros (w & Hin & Hw); exists w; split; auto.
  - eapply Permutation_in; eauto.
  - eapply Permutation_in; [symmetry|]; eauto.
Qed.

Lemma scan_table_None (table : list (string * list string)) (text : string) :
  scan_table table text = None <-> Str.any_in (table_keywords table) text = false.
Proof.
  induction table as [|[label keywords] rest IH]; simpl.
  - split; reflexivity.
  - unfold table_keywords in *. simpl. rewrite any_in_app.
    destruct (Str.any_in keywords text); simpl; [split; discriminate | exact IH].
Qed.

Lemma scan_table_Some_label (table : list (string * list string)) (text label : string) :
  scan_table table text = Some label -> In label (map fst table).
Proof.
  induction table as [|[l keywords] rest IH]; simpl; [discriminate|].
  destruct (Str.any_in keywords text).
  - intros [= <-]. now left.
  - intros Hs. right. auto.
Qed.

Lemma scan_table_first_match (table : list (string * list string)) (text label : string) :
  scan_table table text = Some label <-> exists k, first_match table text k label.
Proof.
  induction table as [|[l keywords] rest IH]; simpl.
  - split; [discriminate | intros (k & kws & Hk & _); destruct k; discriminate].
  - destruct (Str.any_in keywords text) eqn:Hhit.
    + split.
      * intros [= <-]. exists 0%nat, keywords. repeat split; auto. lia.
      * intros (k & kws & Hk & Hm & Hfirst). destruct k as [|k].
        -- simpl in Hk. congruence.
        -- specialize (Hfirst 0%nat l keywords). simpl in Hfirst.
           rewrite Hfirst in Hhit; [discriminate | lia | reflexivity].
    + rewrite IH. split.
      * intros (k & kws & Hk & Hm & Hfirst). exists (S k), kws. repeat split; auto.
        intros [|k'] l' kws' Hlt Hk'; simpl in Hk'.
        -- congruence.
        -- eapply Hfirst; [|eassumption]. lia.
      * intros (k & kws & Hk & Hm & Hfirst). destruct k as [|k].
        -- simpl in Hk. congruence.
        -- exists k, kws. repeat split; auto.
           intros k' l' kws' Hlt Hk'. apply (Hfirst (S k') l' kws'); [lia | exact Hk'].
Qed.

(** When entries [i] and an entry after it both hit, the scan stops at or
    before [i]. *)
Lemma scan_table_hit (table : list (string * list string)) (text : string)
      (i : nat) (label : string) (keywords : list string) :
  table !! i = Some (label, keywords) ->
  Str.any_in keywords text = true ->
  exists k result, (k <= i)%nat /\ scan_table table text = Some result /\
                   first_match table text k result.
Proof.
  intros Hi Hhit.
  destruct (scan_table table text) as [result|] eqn:Hscan.
  - pose proof Hscan as Hfm. apply scan_table_first_match in Hfm.
    destruct Hfm as (k & Hfm). exists k, result. repeat split; auto.
    destruct (le_lt_dec k i) as [Hle|Hlt]; [exact Hle | exfalso].
    destruct Hfm as (kws & _ & _ & Hfirst).
    rewrite (Hfirst i label keywords Hlt Hi) in Hhit. discriminate.
  - exfalso. apply scan_table_None in Hscan.
    rewrite any_in_false in Hscan. apply any_in_true in Hhit.
    destruct Hhit as (w & Hin & Hw). rewrite Hscan in Hw; [discriminate|].
    unfold table_keywords. apply in_flat_map. exists (label, keywords). split; auto.
    apply list_elem_of_In. eapply list_elem_of_lookup_2. exact Hi.
Qed.

End ScanFacts.

(** ** The classifier *)

Section ClassifierFacts.

Lemma first_match_wins_table (table : list (string * list string)) (text : string)
      (i j : nat) (li lj : string) (ki kj : list string) :
  NoDup (map fst table) ->
  (i < j)%nat ->
  table !! i = Some (li, ki) -> table !! j = Some (lj, kj) ->
  Str.any_in ki text = true ->
  exists result, scan_table table text = Some result /\
                 lower_entry_wins table text i li lj result.
Proof.
  intros Hnodup Hij Hi Hj Hhit.
  destruct (scan_table_hit table text i li ki Hi Hhit)
    as (k & result & Hk & Hscan & Hfm).
  exists result. split; [exact Hscan|]. repeat split.
  - exists k. split; assumption.
  - intros ->. destruct Hfm as (kws & Hlk & _ & _).
    assert (k = j) as ->; [|lia].
    eapply (NoDup_lookup (map fst table)); [exact Hnodup| |].
    + rewrite list_lookup_fmap, Hlk. reflexivity.
    + rewrite list_lookup_fmap, Hj. reflexivity.
  - intros Hnone. destruct Hfm as (kws & Hlk & Hm & _).
    destruct (decide (k = i)) as [->|Hne]; [congruence|].
    rewrite (Hnone k result kws) in Hm; [discriminate | lia | exact Hlk].
Qed.

Lemma period_labels_NoDup : NoDup (map fst DYNASTY_PERIODS).
Proof. apply (bool_decide_unpack _). vm_compute. exact I. Qed.

Lemma origin_labels_NoDup : NoDup (map fst GEOGRAPHIC_ORIGINS).
Proof. apply (bool_decide_unpack _). vm_compute. exact I. Qed.

(** None of the three fallback branches of [classify_period] can fire: their
    keywords all sit in the table that was scanned first. *)
Lemma classify_period_is_scan (author source : string) (titles : list string) :
  classify_period author source titles =
  default "Unknown Period"
          (scan_table DYNASTY_PERIODS (plain_text author source titles)).
Proof.
  unfold classify_period.
  destruct (scan_table DYNASTY_PERIODS (plain_text author source titles)) eqn:Hscan;
    [reflexivity|].
  apply scan_table_None in Hscan. rewrite any_in_false in Hscan.
  assert (Hdead : forall words,
             words ⊆ table_keywords DYNASTY_PERIODS ->
             Str.any_in words (plain_text author source titles) = false).
  { intros words Hsub. apply any_in_false. intros w Hw.
    apply Hscan, list_elem_of_In, Hsub, list_elem_of_In, Hw. }
  rewrite (Hdead ["民國"; "中華民國"; "現代"]), (Hdead ["當代"; "現代"]),
    (Hdead ["唐"; "宋"; "元"; "明"; "清"]), andb_false_r; [reflexivity|..];
    apply (bool_decide_unpack _); vm_compute; exact I.
Qed.

Lemma classify_geographic_is_scan (author source : string) (titles : list string) :
  classify_geographic author source titles =
  default "Unknown Origin"
          (scan_table GEOGRAPHIC_ORIGINS (plain_text author source titles)).
Proof. unfold classify_geographic. now destruct (scan_table _ _). Qed.

(** The label a table scan settles on when some keyword occurs, and the
    sentinel when none does. *)
Lemma scan_default_cases (table : list (string * list string))
      (text sentinel : string) :
  if Str.any_in (table_keywords table) text
  then In (default sentinel (scan_table table text)) (map fst table)
  else default sentinel (scan_table table text) = sentinel.
Proof.
  destruct (Str.any_in (table_keywords table) text) eqn:Hany.
  - destruct (scan_table table text) as [label|] eqn:Hscan.
    + simpl. eapply scan_table_Some_label; eauto.
    + apply scan_table_None in Hscan. congruence.
  - apply scan_table_None in Hany. now rewrite Hany.
Qed.

End ClassifierFacts.

Section TraditionFacts.
Context `{StrMethods}.

Lemma tradition_hit_true (text : string) (keywords : list string) :
  tradition_hit text keywords = true <->
  exists keyword, In keyword keywords /\ Str.contains (lower keyword) text = true.
Proof. unfold tradition_hit. apply existsb_exists. Qed.

Lemma tradition_loop_elem (table : list (string * list string)) (text : string)
      (acc : gset string) (t : string) :
  t ∈ tradition_loop table text acc <->
  t ∈ acc \/ exists keywords, In (t, keywords) table /\ tradition_hit text keywords = true.
Proof.
  revert acc. induction table as [|[label keywords] rest IH]; intros acc; simpl.
  - split; [now left | intros [Hacc | (kws & [] & _)]; exact Hacc].
  - rewrite IH. destruct (tradition_hit text keywords) eqn:Hhit.
    + rewrite elem_of_union, elem_of_singleton. split.
      * intros [[-> | Hacc] | (kws & Hin & Hk)]; eauto 6.
      * intros [Hacc | (kws & [[= -> ->] | Hin] & Hk)]; eauto 6.
    + split.
      * intros [Hacc | (kws & Hin & Hk)]; eauto 6.
      * intros [Hacc | (kws & [[= -> ->] | Hin] & Hk)]; eauto 6. congruence.
Qed.

Lemma tradition_loop_matches (text : string) :
  (exists t, t ∈ tradition_loop TRADITION_CLASSIFICATIONS text ∅) <->
  tradition_keyword_matches text.
Proof.
  unfold tradition_keyword_matches. split.
  - intros (t & Ht). apply tradition_loop_elem in Ht.
    destruct Ht as [Ht | (kws & Hin & Hhit)]; [now apply not_elem_of_empty in Ht|].
    apply tradition_hit_true in Hhit. destruct Hhit as (kw & Hkw & Hc).
    exists t, kws, kw. auto.
  - intros (t & kws & kw & Hin & Hkw & Hc). exists t.
    apply tradition_loop_elem. right. exists kws. split; [exact Hin|].
    apply tradition_hit_true. eauto.
Qed.

Lemma tradition_loop_labels (text t : string) :
  t ∈ tradition_loop TRADITION_CLASSIFICATIONS text ∅ ->
  In t (map fst TRADITION_CLASSIFICATIONS).
Proof.
  intros Ht. apply tradition_loop_elem in Ht.
  destruct Ht as [Ht | (kws & Hin & _)]; [now apply not_elem_of_empty in Ht|].
  apply in_map_iff. exists (t, kws). auto.
Qed.

Lemma classify_tradition_unmatched (titles : list string) (author source : string) :
  ~ tradition_keyword_matches (tradition_text titles author source) ->
  classify_tradition titles author source = ["General/Unspecified"].
Proof.
  intros Hno. unfold classify_tradition.
  destruct (decide _) as [_|Hne]; [reflexivity|].
  exfalso. apply Hno, tradition_loop_matches.
  apply set_choose_L in Hne. exact Hne.
Qed.

Lemma classify_tradition_matched (titles : list string) (author source : string) :
  tradition_keyword_matches (tradition_text titles author source) ->
  forall t, In t (classify_tradition titles author source) ->
            In t (map fst TRADITION_CLASSIFICATIONS).
Proof.
  intros Hm t. unfold classify_tradition.
  apply tradition_loop_matches in Hm. destruct Hm as (x & Hx).
  destruct (decide _) as [Hempty|_].
  - rewrite Hempty in Hx. now apply not_elem_of_empty in Hx.
  - intros Ht. apply tradition_loop_labels with (text := tradition_text titles author source).
    apply elem_of_elements, list_elem_of_In, Ht.
Qed.

End TraditionFacts.

(** Two [str] implementations that lower the text and every table keyword
    alike classify the tradition alike. *)
Lemma classify_tradition_ext (M1 M2 : StrMethods)
      (titles : list string) (author source : string) :
  (forall s, In s (Str.join " " (titles ++ [author] ++ [source])
                   :: table_keywords TRADITION_CLASSIFICATIONS) ->
             @lower M1 s = @lower M2 s) ->
  @classify_tradition M1 titles author source =
  @classify_tradition M2 titles author source.
Proof.
  intros Hlow. unfold classify_tradition, tradition_text.
  rewrite (Hlow _ (or_introl eq_refl)).
  assert (Hkw : forall s, In s (table_keywords TRADITION_CLASSIFICATIONS) ->
                          @lower M1 s = @lower M2 s) by (intros s Hs; apply Hlow; now right).
  clear Hlow. generalize (@lower M2 (Str.join " " (titles ++ [author] ++ [source]))).
  intros text. generalize (∅ : gset string).
  revert Hkw. generalize TRADITION_CLASSIFICATIONS.
  assert (Hloop : forall table acc,
             (forall s, In s (table_keywords table) -> @lower M1 s = @lower M2 s) ->
             @tradition_loop M1 table text acc = @tradition_loop M2 table text acc).
  { induction table as [|[label keywords] rest IH]; intros acc Hkw; simpl; [reflexivity|].
    assert (@tradition_hit M1 text keywords = @tradition_hit M2 text keywords) as ->.
    { assert (Hk : forall kw, In kw keywords -> @lower M1 kw = @lower M2 kw).
      { intros kw Hin. apply Hkw. unfold table_keywords. simpl.
        apply in_or_app. now left. }
      unfold tradition_hit. clear -Hk.
      induction keywords as [|kw kws IHk]; simpl; [reflexivity|].
      rewrite (Hk kw (or_introl eq_refl)), IHk; [reflexivity|].
      intros kw' Hin. apply Hk. now right. }
  apply IH. intros s Hs. apply Hkw. unfold table_keywords. simpl.
    apply in_or_app. now right. }
  intros table Hkw acc. now rewrite (Hloop table acc Hkw).
Qed.

(** ** Claims about the classifier *)

(** C1, as stated, fails: the title 六祖壇經 holds none of the Chan/Zen
    keywords (禪 is not one of its four characters), so the tradition result
    is not the singleton Chan/Zen. *)
Lemma C1_platform_sutra_not_chan :
  ~ (@classify_tradition ascii_str ["六祖壇經"] "釋宗寶" "宋" = ["Chan/Zen"] /\
     classify_period "釋宗寶" "宋" ["六祖壇經"] = "Song" /\
     classify_geographic "釋宗寶" "宋" ["六祖壇經"] = "Unknown Origin").
Proof. intros [Htrad _]. vm_compute in Htrad. discriminate Htrad. Qed.

(** C1 (amended): for titles [六祖壇經], author 釋宗寶 and source 宋, under any
    [str.lower] that treats this text and the table keywords as ASCII
    lowering does (Python's does: none of them has a cased letter outside
    ASCII that is not already lower case), [classify_tradition] returns
    exactly [Commentarial] (the author's 釋 is a Commentarial keyword),
    [classify_period] returns Song and [classify_geographic] returns
    Unknown Origin. *)
Theorem C1_platform_sutra `{StrMethods} :
  (forall s, In s (Str.join " " (["六祖壇經"] ++ ["釋宗寶"] ++ ["宋"])
                   :: table_keywords TRADITION_CLASSIFICATIONS) ->
             lower s = Str.map_chars Str.ascii_lower_char s) ->
  classify_tradition ["六祖壇經"] "釋宗寶" "宋" = ["Commentarial"] /\
  classify_period "釋宗寶" "宋" ["六祖壇經"] = "Song" /\
  classify_geographic "釋宗寶" "宋" ["六祖壇經"] = "Unknown Origin".
Proof.
  intros Hlow. split; [|split; vm_compute; reflexivity].
  rewrite (classify_tradition_ext _ ascii_str); [vm_compute; reflexivity|].
  exact Hlow.
Qed.

Lemma C1_platform_sutra_witness :
  @classify_tradition ascii_str ["六祖壇經"] "釋宗寶" "宋" = ["Commentarial"] /\
  classify_period "釋宗寶" "宋" ["六祖壇經"] = "Song" /\
  classify_geographic "釋宗寶" "宋" ["六祖壇經"] = "Unknown Origin".
Proof. apply (@C1_platform_sutra ascii_str). intros s _. reflexivity. Defined.

(** C3: when the text holds keywords of two entries [i < j] of the period
    table, [classify_period] returns the label of the first matching entry,
    which lies at or before [i]; it never returns entry [j]'s label, and it
    returns entry [i]'s label when no earlier entry matches.  The same holds
    for [classify_geographic] over its table. *)
Theorem C3_first_match_wins :
  (forall author source titles i j li ki lj kj,
      (i < j)%nat ->
      DYNASTY_PERIODS !! i = Some (li, ki) ->
      DYNASTY_PERIODS !! j = Some (lj, kj) ->
      Str.any_in ki (plain_text author source titles) = true ->
      Str.any_in kj (plain_text author source titles) = true ->
      lower_entry_wins DYNASTY_PERIODS (plain_text author source titles) i li lj
                       (classify_period author source titles)) /\
  (forall author source titles i j li ki lj kj,
      (i < j)%nat ->
      GEOGRAPHIC_ORIGINS !! i = Some (li, ki) ->
      GEOGRAPHIC_ORIGINS !! j = Some (lj, kj) ->
      Str.any_in ki (plain_text author source titles) = true ->
      Str.any_in kj (plain_text author source titles) = true ->
      lower_entry_wins GEOGRAPHIC_ORIGINS (plain_text author source titles) i li lj
                       (classify_geographic author source titles)).
Proof.
  split; intros author source titles i j li ki lj kj Hij Hi Hj Hhi Hhj.
  - destruct (first_match_wins_table _ _ i j li lj ki kj
                period_labels_NoDup Hij Hi Hj Hhi) as (result & Hscan & Hwins).
    rewrite classify_period_is_scan, Hscan. exact Hwins.
  - destruct (first_match_wins_table _ _ i j li lj ki kj
                origin_labels_NoDup Hij Hi Hj Hhi) as (result & Hscan & Hwins).
    rewrite classify_geographic_is_scan, Hscan. exact Hwins.
Qed.

(** A source naming both 宋 (entry 2) and 元 (entry 3) is Song; an author from
    日本 (entry 4) writing of 大唐 (entry 2) is placed in China. *)
Lemma C3_first_match_wins_witness :
  classify_period "道原" "宋元" [] = "Song" /\
  classify_geographic "日本" "大唐" [] = "China".
Proof.
  split.
  - refine (proj2 (proj2 (proj1 C3_first_match_wins "道原" "宋元" [] 2 3
             "Song" ["宋"; "北宋"; "南宋"] "Yuan" ["元"] _ _ _ _ _)) _);
      try reflexivity; [lia|].
    intros k' l' kws' Hlt Hk'.
    destruct k' as [|[|k']]; [| |lia]; injection Hk' as <- <-; reflexivity.
  - refine (proj2 (proj2 (proj2 C3_first_match_wins "日本" "大唐" [] 2 4
             "China" ["中國"; "漢地"; "中土"; "大唐"; "大宋"; "大元"; "大明"; "大清"]
             "Japan" ["日本"; "倭"] _ _ _ _ _)) _);
      try reflexivity; [lia|].
    intros k' l' kws' Hlt Hk'.
    destruct k' as [|[|k']]; [| |lia]; injection Hk' as <- <-; reflexivity.
Defined.

(** C6, as stated, fails: matching is case-insensitive on both sides.  The
    text of author "tibetan lama" holds no keyword of the table as listed -
    neither as it stands nor lower-cased, Tibetan being listed with a
    capital - and yet [classify_tradition] returns the label Tibetan, because
    the code lowers the keyword too. *)
Lemma C6_listed_keyword_absent_yet_labelled :
  ~ (forall titles author source,
        (forall tradition keywords keyword,
            In (tradition, keywords) TRADITION_CLASSIFICATIONS ->
            In keyword keywords ->
            Str.contains keyword (Str.join " " (titles ++ [author] ++ [source])) = false) ->
        @classify_tradition ascii_str titles author source = ["General/Unspecified"]) /\
  ~ (forall titles author source,
        (forall tradition keywords keyword,
            In (tradition, keywords) TRADITION_CLASSIFICATIONS ->
            In keyword keywords ->
            Str.contains keyword (@tradition_text ascii_str titles author source) = false) ->
        @classify_tradition ascii_str titles author source = ["General/Unspecified"]).
Proof.
  assert (Hlabel : @classify_tradition ascii_str [] "tibetan lama" EmptyString = ["Tibetan"])
    by (vm_compute; reflexivity).
  assert (Habsent : forall text,
            forallb (fun entry => forallb (fun kw => negb (Str.contains kw text)) (snd entry))
                    TRADITION_CLASSIFICATIONS = true ->
            forall tradition keywords keyword,
              In (tradition, keywords) TRADITION_CLASSIFICATIONS ->
              In keyword keywords -> Str.contains keyword text = false).
  { intros text Hall tradition keywords keyword Hin Hkw.
    rewrite forallb_forall in Hall. specialize (Hall _ Hin). cbn [snd] in Hall.
    rewrite forallb_forall in Hall. specialize (Hall _ Hkw).
    now apply negb_true_iff in Hall. }
  split; intros Hclaim; specialize (Hclaim [] "tibetan lama" EmptyString);
    rewrite Hlabel in Hclaim.
  - assert (Hno : ["Tibetan"] = ["General/Unspecified"]);
      [apply Hclaim, Habsent; vm_compute; reflexivity | discriminate Hno].
  - assert (Hno : ["Tibetan"] = ["General/Unspecified"]);
      [apply Hclaim, Habsent; vm_compute; reflexivity | discriminate Hno].
Qed.

(** C6 (amended): when the lower-cased concatenated text holds the
    lower-cased form of no keyword of the tradition table - the
    case-insensitive test the code applies - [classify_tradition] returns
    exactly the singleton [General/Unspecified]. *)
Theorem C6_unmatched_is_general `{StrMethods}
        (titles : list string) (author source : string) :
  (forall tradition keywords keyword,
      In (tradition, keywords) TRADITION_CLASSIFICATIONS ->
      In keyword keywords ->
      Str.contains (lower keyword) (tradition_text titles author source) = false) ->
  classify_tradition titles author source = ["General/Unspecified"].
Proof.
  intros Hnone. apply classify_tradition_unmatched.
  intros (t & kws & kw & Hin & Hkw & Hc).
  rewrite (Hnone t kws kw Hin Hkw) in Hc. discriminate.
Qed.

Lemma C6_unmatched_is_general_witness :
  @classify_tradition ascii_str ["金剛般若波羅蜜經"] "鳩摩羅什" "CBETA" =
  ["General/Unspecified"].
Proof.
  apply (@C6_unmatched_is_general ascii_str).
  intros tradition keywords keyword Hin Hkw.
  assert (Hall : forallb (fun entry =>
            forallb (fun kw => negb (Str.contains (@lower ascii_str kw)
               (@tradition_text ascii_str ["金剛般若波羅蜜經"] "鳩摩羅什" "CBETA")))
              (snd entry)) TRADITION_CLASSIFICATIONS = true)
    by (vm_compute; reflexivity).
  rewrite forallb_forall in Hall. specialize (Hall _ Hin). simpl in Hall.
  rewrite forallb_forall in Hall. specialize (Hall _ Hkw).
  now apply negb_true_iff in Hall.
Defined.

(** C7: [classify_period] and [classify_geographic] each return one label,
    never the empty string: a label of the table when some table keyword
    occurs in the text, and otherwise the sentinel Unknown Period, resp.
    Unknown Origin. *)
Theorem C7_one_label (author source : string) (titles : list string) :
  let text := plain_text author source titles in
  let period := classify_period author source titles in
  let origin := classify_geographic author source titles in
  Str.truthy period = true /\
  (if Str.any_in (table_keywords DYNASTY_PERIODS) text
   then In period (map fst DYNASTY_PERIODS) else period = "Unknown Period") /\
  Str.truthy origin = true /\
  (if Str.any_in (table_keywords GEOGRAPHIC_ORIGINS) text
   then In origin (map fst GEOGRAPHIC_ORIGINS) else origin = "Unknown Origin").
Proof.
  intros text period origin. subst period origin.
  rewrite classify_period_is_scan, classify_geographic_is_scan. fold text.
  pose proof (scan_default_cases DYNASTY_PERIODS text "Unknown Period") as Hp.
  pose proof (scan_default_cases GEOGRAPHIC_ORIGINS text "Unknown Origin") as Ho.
  generalize dependent (default "Unknown Period" (scan_table DYNASTY_PERIODS text)).
  generalize dependent (default "Unknown Origin" (scan_table GEOGRAPHIC_ORIGINS text)).
  intros origin Ho period Hp.
  repeat split; try assumption.
  - destruct (Str.any_in (table_keywords DYNASTY_PERIODS) text).
    + simpl in Hp. repeat (destruct Hp as [<-|Hp]; [reflexivity|]). destruct Hp.
    + now rewrite Hp.
  - destruct (Str.any_in (table_keywords GEOGRAPHIC_ORIGINS) text).
    + simpl in Ho. repeat (destruct Ho as [<-|Ho]; [reflexivity|]). destruct Ho.
    + now rewrite Ho.
Qed.

(** C8, as stated, fails: the table does not have 15 entries. *)
Lemma C8_not_fifteen_entries :
  ~ (List.length TRADITION_CLASSIFICATIONS = 15%nat /\
     Forall (fun entry => (3 <= List.length (snd entry) <= 8)%nat)
            TRADITION_CLASSIFICATIONS).
Proof. intros [Hlen _]. vm_compute in Hlen. discriminate Hlen. Qed.

(** C8 (amended): the tradition table has exactly 14 entries, each with at
    least 3 and at most 9 keyword variants; Chan/Zen has 9. *)
Theorem C8_table_shape :
  List.length TRADITION_CLASSIFICATIONS = 14%nat /\
  Forall (fun entry => (3 <= List.length (snd entry) <= 9)%nat)
         TRADITION_CLASSIFICATIONS /\
  (exists keywords, In ("Chan/Zen", keywords) TRADITION_CLASSIFICATIONS /\
                    List.length keywords = 9%nat).
Proof.
  split; [reflexivity|]. split.
  - unfold TRADITION_CLASSIFICATIONS. repeat constructor; simpl; lia.
  - eexists. split; [left; reflexivity | reflexivity].
Qed.

(** C9: on every input [classify_period] equals the plain table scan with
    default Unknown Period; the three fallback branches are unreachable, and
    Traditional Chinese Buddhism is never returned. *)
Theorem C9_fallbacks_unreachable (author source : string) (titles : list string) :
  classify_period author source titles = classify_period_simple author source titles /\
  classify_period author source titles <> "Traditional Chinese Buddhism".
Proof.
  split; [apply classify_period_is_scan|].
  rewrite classify_period_is_scan.
  destruct (scan_table DYNASTY_PERIODS (plain_text author source titles))
    as [label|] eqn:Hscan; simpl; [|discriminate].
  apply scan_table_Some_label in Hscan. simpl in Hscan.
  repeat (destruct Hscan as [<-|Hscan]; [discriminate|]). destruct Hscan.
Qed.

(** C10: the result of [classify_tradition] contains General/Unspecified
    exactly when no tradition keyword matched; it is then the singleton of
    that sentinel, and no label of the table stands next to it. *)
Theorem C10_sentinel_alone `{StrMethods}
        (titles : list string) (author source : string) :
  let result := classify_tradition titles author source in
  (In "General/Unspecified" result <->
   ~ tradition_keyword_matches (tradition_text titles author source)) /\
  (In "General/Unspecified" result -> result = ["General/Unspecified"]) /\
  (In "General/Unspecified" result ->
   forall t, In t (map fst TRADITION_CLASSIFICATIONS) -> ~ In t result).
Proof.
  intros result.
  assert (Hfresh : ~ In "General/Unspecified" (map fst TRADITION_CLASSIFICATIONS)).
  { simpl. intros Hin. repeat (destruct Hin as [Hin|Hin]; [discriminate Hin|]).
    exact Hin. }
  assert (Hiff : In "General/Unspecified" result <->
                 ~ tradition_keyword_matches (tradition_text titles author source)).
  { split.
    - intros Hin Hm. apply Hfresh.
      exact (classify_tradition_matched titles author source Hm _ Hin).
    - intros Hno. unfold result.
      rewrite (classify_tradition_unmatched titles author source Hno). now left. }
  assert (Hsingle : In "General/Unspecified" result -> result = ["General/Unspecified"]).
  { intros Hin.
    exact (classify_tradition_unmatched titles author source (proj1 Hiff Hin)). }
  split; [exact Hiff|]. split; [exact Hsingle|].
  intros Hin t Ht Htr. rewrite (Hsingle Hin) in Htr.
  destruct Htr as [<-|[]]. exact (Hfresh Ht).
Qed.

(** ** Index updates *)

Section IndexFacts.

Lemma in_index_empty (key path : string) : ~ in_index ∅ key path.
Proof. intros (paths & Hl & _). rewrite lookup_empty in Hl. discriminate. Qed.



Lemma index_append_inv (key path k q : string) (index : gmap string (list string)) :
  in_index (index_append key path index) k q ->
  in_index index k q \/ (k = key /\ q = path).
Proof.
  unfold in_index, index_append. intros (paths & Hl & Hin).
  destruct (decide (key = k)) as [->|Hne].
  - rewrite lookup_insert_eq in Hl. injection Hl as <-.
    apply in_app_or in Hin. destruct Hin as [Hin|[<-|[]]]; [left | right; auto].
    destruct (index !! k) as [old|]; simpl in Hin; [eauto | destruct Hin].
  - rewrite lookup_insert_ne in Hl by exact Hne. eauto.
Qed.



Lemma index_fold_inv (path k q : string) (keys : list string)
      (index : gmap string (list string)) :
  in_index (fold_left (fun index key => index_append key path index) keys index) k q ->
  in_index index k q \/ (In k keys /\ q = path).
Proof.
  revert index. induction keys as [|key keys IH]; intros index Hin; simpl in *; [now left|].
  apply IH in Hin. destruct Hin as [Hin|[Hk ->]]; [|now (right; auto)].
  apply index_append_inv in Hin. destruct Hin as [Hin|[-> ->]]; [now left|].
  right. auto.
Qed.



Lemma canon_update_inv (code path : string) (traditions : list string)
      (period origin : string) (by_canon : gmap string CanonGroup.t) (c q : string) :
  (exists g, canon_update code path traditions period origin by_canon !! c = Some g /\
             In q (CanonGroup.files g)) ->
  (exists g, by_canon !! c = Some g /\ In q (CanonGroup.files g)) \/ q = path.
Proof.
  unfold canon_update. intros (g & Hl & Hin).
  destruct (decide (code = c)) as [->|Hne].
  - rewrite lookup_insert_eq in Hl. injection Hl as <-. simpl in Hin.
    apply in_app_or in Hin. destruct Hin as [Hin|[<-|[]]]; [left | now right].
    destruct (by_canon !! c) as [old|]; simpl in Hin; [eauto | destruct Hin].
  - rewrite lookup_insert_ne in Hl by exact Hne. eauto.
Qed.

End IndexFacts.

(** ** Extractor and walker *)

Section WalkerFacts.
Context `{StrMethods}.
Variable os_sep : ascii.
Variable ET_parse : string -> string + Element.
Variable canon_info : gmap string json.

Local Abbreviation extract p := (extract_metadata os_sep ET_parse p canon_info).
Local Abbreviation step := (loop_body os_sep ET_parse canon_info).
Local Abbreviation walked xs := (walk os_sep ET_parse canon_info xs).

Lemma extract_parse_error (path e : string) :
  ET_parse path = inl e -> extract path = ExtractionError e.
Proof. intros Hp. unfold extract_metadata. now rewrite Hp. Qed.

Lemma extract_parsed (path : string) (m : Metadata.t) :
  extract path = Extracted m -> exists root, ET_parse path = inr root.
Proof.
  unfold extract_metadata. destruct (ET_parse path) as [e|root]; [discriminate|eauto].
Qed.

Lemma extract_file_path (path : string) (m : Metadata.t) :
  extract path = Extracted m -> Metadata.file_path m = path.
Proof.
  unfold extract_metadata. destruct (ET_parse path) as [e|root]; [discriminate|].
  cbv zeta.
  match goal with
  | |- match ?name with inl _ => _ | inr _ => _ end = _ -> _ => destruct name
  end; [discriminate|].
  intros [= <-]. reflexivity.
Qed.

(** With no attribute under the literal key [xml:id], the canon code is
    whatever the scan of the path segments finds. *)
Lemma extract_canon_without_literal_id (path : string) (root : Element) (m : Metadata.t) :
  ET_parse path = inr root ->
  ET.attrib root !! "xml:id" = None ->
  extract path = Extracted m ->
  Metadata.xml_id m = EmptyString /\
  Metadata.canon_code m =
    List.find (fun part => bool_decide (is_Some (canon_info !! part)))
              (Str.split os_sep path).
Proof.
  intros Hp Hid. unfold extract_metadata. rewrite Hp. cbv zeta.
  unfold ET.get. rewrite Hid. simpl Str.truthy. cbv iota. simpl code_truthy. cbv iota.
  match goal with
  | |- match ?name with inl _ => _ | inr _ => _ end = _ -> _ => destruct name
  end; [discriminate|].
  intros [= <-]. split; reflexivity.
Qed.

(** With an identifier under the literal key, its leading capitals are the
    canon code and the path is not consulted. *)
Lemma extract_canon_from_literal_id (path id code : string) (root : Element)
      (m : Metadata.t) :
  ET_parse path = inr root ->
  ET.attrib root !! "xml:id" = Some id ->
  Str.match_upper id = Some code ->
  extract path = Extracted m ->
  Metadata.canon_code m = Some code.
Proof.
  intros Hp Hid Hrun. unfold extract_metadata. rewrite Hp. cbv zeta.
  unfold ET.get. rewrite Hid.
  assert (Hid_truthy : Str.truthy id = true).
  { destruct id; [discriminate Hrun | reflexivity]. }
  assert (Hcode : Str.truthy code = true).
  { unfold Str.match_upper in Hrun. destruct (Str.upper_run id); [discriminate|].
    injection Hrun as <-. reflexivity. }
  rewrite Hid_truthy, Hrun. simpl code_truthy. rewrite Hcode.
  match goal with
  | |- match ?name with inl _ => _ | inr _ => _ end = _ -> _ => destruct name
  end; [discriminate|].
  intros [= <-]. reflexivity.
Qed.

Lemma loop_body_error (w : walker) (path : string) :
  is_error (extract path) = true ->
  step w path = mkWalker (S (processed w)) (results w).
Proof.
  unfold loop_body. destruct (extract path); [discriminate | reflexivity].
Qed.

Lemma loop_body_processed (w : walker) (path : string) :
  processed (step w path) = S (processed w).
Proof. unfold loop_body. now destruct (extract path). Qed.

Lemma loop_body_extracted (w : walker) (path : string) (m : Metadata.t) :
  extract path = Extracted m ->
  let r := results w in
  let traditions :=
    classify_tradition (Metadata.titles m) (Metadata.author m) (Metadata.source m) in
  let period :=
    classify_period (Metadata.author m) (Metadata.source m) (Metadata.titles m) in
  let origin :=
    classify_geographic (Metadata.author m) (Metadata.source m) (Metadata.titles m) in
  results (step w path) =
  Results.mk
    (Results.summary r)
    (if code_truthy (Metadata.canon_code m)
     then canon_update (default EmptyString (Metadata.canon_code m)) (Metadata.file_path m)
                       traditions period origin (Results.by_canon r)
     else Results.by_canon r)
    (fold_left (fun index tradition => index_append tradition (Metadata.file_path m) index)
               traditions (Results.by_tradition r))
    (index_append period (Metadata.file_path m) (Results.by_period r))
    (index_append origin (Metadata.file_path m) (Results.by_origin r))
    (Results.detailed_analysis r ++ [detail_record m]).
Proof. intros Hx. unfold loop_body. rewrite Hx. reflexivity. Qed.

Lemma walk_snoc (xml_files : list string) (xml_file : string) :
  walked (xml_files ++ [xml_file]) = step (walked xml_files) xml_file.
Proof. unfold walk. now rewrite fold_left_app. Qed.

Lemma attributed_empty (path : string) : ~ attributed Results.empty path.
Proof.
  unfold attributed, in_by_canon, in_details. simpl.
  intros [(code & g & Hl & _) | [(k & Hk) | [(k & Hk) | [(k & Hk) | (d & [] & _)]]]];
    try (now apply in_index_empty in Hk).
  rewrite lookup_empty in Hl. discriminate.
Qed.

(** A turn of the loop attributes nothing but the path it was given, and
    that only when extraction succeeded. *)
Lemma loop_body_attributed_inv (w : walker) (path q : string) :
  attributed (results (step w path)) q ->
  attributed (results w) q \/ (q = path /\ is_error (extract path) = false).
Proof.
  destruct (extract path) as [m|e] eqn:Hx.
  - pose proof (extract_file_path path m Hx) as Hfile.
    rewrite (loop_body_extracted w path m Hx). cbv zeta. rewrite Hfile.
    unfold attributed, in_by_canon, in_details.
    cbn [Results.by_canon Results.by_tradition Results.by_period Results.by_origin
           Results.detailed_analysis].
    intros [(code & Hc) | [(k & Hk) | [(k & Hk) | [(k & Hk) | (d & Hd & Hf)]]]].
    + destruct (code_truthy (Metadata.canon_code m)); [|left; left; eauto].
      apply canon_update_inv in Hc. destruct Hc as [Hc | ->]; [left; left; eauto | auto].
    + apply index_fold_inv in Hk. destruct Hk as [Hk|[_ ->]]; [left; right; left; eauto | auto].
    + apply index_append_inv in Hk.
      destruct Hk as [Hk|[_ ->]]; [left; right; right; left; eauto | auto].
    + apply index_append_inv in Hk.
      destruct Hk as [Hk|[_ ->]]; [left; right; right; right; left; eauto | auto].
    + apply in_app_or in Hd. destruct Hd as [Hd|[<-|[]]].
      * left. right. right. right. right. eauto.
      * right. unfold detail_record in Hf. cbn [Detail.file] in Hf.
        rewrite Hfile in Hf. auto.
  - rewrite loop_body_error by (now rewrite Hx). simpl. now left.
Qed.

Lemma walk_attributed (xml_files : list string) (q : string) :
  attributed (results (walked xml_files)) q ->
  In q xml_files /\ is_error (extract q) = false.
Proof.
  induction xml_files as [|xml_file xml_files IH] using rev_ind.
  - intros Hq. now apply attributed_empty in Hq.
  - rewrite walk_snoc. intros Hq. apply loop_body_attributed_inv in Hq.
    destruct Hq as [Hq|[-> Hok]].
    + destruct (IH Hq) as [Hin Hok]. split; [apply in_or_app; now left | exact Hok].
    + split; [apply in_or_app; right; now left | exact Hok].
Qed.





End WalkerFacts.

(** ** Claims about the extractor and the walker *)

(** C2: a document that declares [xml:id="T0001_foo"], parsed by
    ElementTree, carries the identifier under the expanded attribute name;
    [root.get('xml:id', '')] therefore reads the empty string.  At the path
    doc.xml no canon code is derived at all; at T/T01/doc.xml the code T comes
    from the path scan, not from the identifier; only a tree carrying the
    literal key [xml:id] has its identifier read. *)
Theorem C2_declared_identifier_unread :
  @extract_metadata ascii_str "/" Sample.fs "doc.xml" Sample.registry =
    Extracted (Metadata.mk EmptyString None (JString "Unknown")
                           ["六祖壇經"] "釋宗寶" "宋" "doc.xml") /\
  @extract_metadata ascii_str "/" Sample.fs "T/T01/doc.xml" Sample.registry =
    Extracted (Metadata.mk EmptyString (Some "T") (JString "大正新脩大藏經")
                           ["六祖壇經"] "釋宗寶" "宋" "T/T01/doc.xml") /\
  @extract_metadata ascii_str "/" Sample.fs "built.xml" Sample.registry =
    Extracted (Metadata.mk "T0001_foo" (Some "T") (JString "大正新脩大藏經")
                           ["六祖壇經"] "釋宗寶" "宋" "built.xml").
Proof. repeat split; vm_compute; reflexivity. Qed.

(** C4, as stated, fails: the walker keeps no counter of skipped documents.
    Its variable [processed] also advances on a well-formed document, and
    nothing read off [results] moves on a malformed one. *)
Lemma C4_no_skip_counter :
  ~ exists counter,
      walker_counter counter /\
      @counts_skips ascii_str "/" Sample.fs Sample.registry counter.
Proof.
  intros (counter & [-> | (c & ->)] & Hcount).
  - specialize (Hcount (mkWalker 0 Results.empty) "misc/anonymous.xml").
    vm_compute in Hcount. discriminate Hcount.
  - specialize (Hcount (mkWalker 0 Results.empty) "bad.xml").
    rewrite (@loop_body_error ascii_str) in Hcount by reflexivity.
    change (is_error (@extract_metadata ascii_str "/" Sample.fs "bad.xml" Sample.registry))
      with true in Hcount.
    simpl in Hcount. lia.
Qed.

(** C4 (amended): for a document whose markup cannot be parsed, extraction
    returns the error value carrying the exception's text; the turn of the
    loop leaves the results untouched and advances only the progress count
    [processed]; and the path stands in none of the four grouping indices and
    in no detail record of the final result. *)
Theorem C4_malformed_skipped `{StrMethods} (os_sep : ascii)
        (ET_parse : string -> string + Element) (canon_info : gmap string json)
        (xml_files : list string) (path e : string) :
  ET_parse path = inl e ->
  extract_metadata os_sep ET_parse path canon_info = ExtractionError e /\
  (forall w, loop_body os_sep ET_parse canon_info w path =
             mkWalker (S (processed w)) (results w)) /\
  ~ attributed (analyze_buddhist_metadata os_sep ET_parse canon_info xml_files) path.
Proof.
  intros Hparse.
  pose proof (extract_parse_error os_sep ET_parse canon_info path e Hparse) as Herr.
  split; [exact Herr|]. split.
  - intros w. apply loop_body_error. now rewrite Herr.
  - intros Hattr.
    assert (Hwalk : attributed (results (walk os_sep ET_parse canon_info xml_files)) path)
      by exact Hattr.
    apply walk_attributed in Hwalk. destruct Hwalk as [_ Hok].
    rewrite Herr in Hok. discriminate Hok.
Qed.

Lemma C4_malformed_skipped_witness :
  @extract_metadata ascii_str "/" Sample.fs "bad.xml" Sample.registry =
    ExtractionError "syntax error: line 1, column 0" /\
  (forall w, @loop_body ascii_str "/" Sample.fs Sample.registry w "bad.xml" =
             mkWalker (S (processed w)) (results w)) /\
  ~ attributed (@analyze_buddhist_metadata ascii_str "/" Sample.fs Sample.registry
                  ["T/T01/doc.xml"; "bad.xml"; "misc/anonymous.xml"]) "bad.xml".
Proof.
  apply (@C4_malformed_skipped ascii_str "/" Sample.fs Sample.registry
           ["T/T01/doc.xml"; "bad.xml"; "misc/anonymous.xml"] "bad.xml"
           "syntax error: line 1, column 0").
  reflexivity.
Defined.




(** ** Substrings *)

Section SubstringFacts.

Lemma append_cons (c : ascii) (a b : string) :
  (String c a ++ b = String c (a ++ b))%string.
Proof. reflexivity. Qed.

Lemma append_nil (b : string) : (EmptyString ++ b = b)%string.
Proof. reflexivity. Qed.

Lemma prefix_spec (needle hay : string) :
  String.prefix needle hay = true <-> exists rest, hay = (needle ++ rest)%string.
Proof.
  revert hay. induction needle as [|c needle IH]; intros hay.
  - split; [intros _; exists hay; reflexivity | intros _; now destruct hay].
  - destruct hay as [|d hay]; simpl.
    + split; [discriminate | intros (rest & Hr); discriminate Hr].
    + destruct (Ascii.ascii_dec c d) as [->|Hne].
      * rewrite IH. split; intros (rest & Hr); exists rest.
        -- rewrite append_cons. now rewrite Hr.
        -- rewrite append_cons in Hr. now injection Hr.
      * split; [discriminate | intros (rest & Hr)].
        rewrite append_cons in Hr. congruence.
Qed.

Lemma contains_spec (needle hay : string) :
  Str.contains needle hay = true <->
  exists before after, hay = (before ++ needle ++ after)%string.
Proof.
  induction hay as [|d hay IH]; cbn [Str.contains].
  - rewrite orb_false_r, prefix_spec. split.
    + intros (rest & Hr). exists EmptyString, rest. exact Hr.
    + intros (before & after & Hr). destruct before as [|b before].
      * rewrite append_nil in Hr. eauto.
      * rewrite append_cons in Hr. discriminate Hr.
  - rewrite orb_true_iff, prefix_spec, IH. split.
    + intros [(rest & Hr) | (before & after & Hr)].
      * exists EmptyString, rest. exact Hr.
      * exists (String d before), after. rewrite append_cons. now rewrite Hr.
    + intros (before & after & Hr). destruct before as [|b before].
      * left. rewrite append_nil in Hr. eauto.
      * right. rewrite append_cons in Hr. injection Hr as _ Hr. eauto.
Qed.

Lemma append_assoc (a b c : string) : ((a ++ b) ++ c = a ++ (b ++ c))%string.
Proof.
  induction a as [|x a IH]; [reflexivity|]. now rewrite !append_cons, IH.
Qed.

(** A text that holds a keyword holds every ending of that keyword. *)
Lemma contains_suffix (front back hay : string) :
  Str.contains (front ++ back) hay = true -> Str.contains back hay = true.
Proof.
  rewrite !contains_spec. intros (before & after & ->).
  exists (before ++ front)%string, after. now rewrite !append_assoc.
Qed.

Lemma prefix_cons (c d : ascii) (needle hay : string) :
  String.prefix (String c needle) (String d hay) =
  if Ascii.ascii_dec c d then String.prefix needle hay else false.
Proof. reflexivity. Qed.

Lemma prefix_cons_nil (c : ascii) (needle : string) :
  String.prefix (String c needle) EmptyString = false.
Proof. reflexivity. Qed.

Lemma contains_cons (needle : string) (d : ascii) (hay : string) :
  Str.contains needle (String d hay) =
  String.prefix needle (String d hay) || Str.contains needle hay.
Proof. reflexivity. Qed.

Lemma contains_nil (needle : string) :
  Str.contains needle EmptyString = String.prefix needle EmptyString.
Proof. cbn [Str.contains]. apply orb_false_r. Qed.

Lemma field_keyword_head (keyword : string) :
  field_keyword keyword = true ->
  exists c rest, keyword = String c rest /\ c <> " "%char /\
                 Str.contains " " (String c rest) = false.
Proof.
  unfold field_keyword. destruct keyword as [|c rest]; [discriminate|].
  cbn [Str.truthy andb]. intros Hsp. apply negb_true_iff in Hsp.
  exists c, rest. repeat split; auto.
  intros ->. rewrite contains_cons, prefix_cons in Hsp.
  destruct (Ascii.ascii_dec " " " ") as [_|Hne]; [|contradiction].
  destruct rest; discriminate Hsp.
Qed.

Lemma prefix_before_space (keyword a b : string) :
  Str.contains " " keyword = false ->
  String.prefix keyword (a ++ String " " b) = String.prefix keyword a.
Proof.
  revert a. induction keyword as [|c keyword IH]; intros a Hsp; [now destruct a|].
  rewrite contains_cons, prefix_cons in Hsp. apply orb_false_iff in Hsp.
  destruct Hsp as [Hc Hsp].
  assert (Hne : c <> " "%char).
  { intros ->. destruct (Ascii.ascii_dec " " " ") as [_|Hne]; [|contradiction].
    destruct keyword; discriminate Hc. }
  destruct a as [|x a].
  - rewrite append_nil, prefix_cons, prefix_cons_nil.
    destruct (Ascii.ascii_dec c " "); [contradiction | reflexivity].
  - rewrite append_cons, !prefix_cons.
    destruct (Ascii.ascii_dec c x); [apply IH, Hsp | reflexivity].
Qed.

(** A keyword without a space occurs in two fields joined by a space exactly
    when it occurs in one of them. *)
Lemma contains_across_space (keyword a b : string) :
  field_keyword keyword = true ->
  Str.contains keyword (a ++ String " " b) =
  Str.contains keyword a || Str.contains keyword b.
Proof.
  intros Hk. apply field_keyword_head in Hk.
  destruct Hk as (c & rest & -> & Hc & Hsp).
  induction a as [|x a IH].
  - rewrite append_nil, contains_cons, contains_nil, prefix_cons, prefix_cons_nil.
    destruct (Ascii.ascii_dec c " "); [contradiction | reflexivity].
  - rewrite append_cons, !contains_cons, IH, <- append_cons.
    rewrite (prefix_before_space _ (String x a) b Hsp).
    now rewrite orb_assoc.
Qed.

Lemma contains_join (keyword : string) (parts : list string) :
  field_keyword keyword = true ->
  Str.contains keyword (Str.join " " parts) =
  existsb (fun part => Str.contains keyword part) parts.
Proof.
  intros Hk. unfold Str.join. induction parts as [|part parts IH].
  - apply field_keyword_head in Hk. destruct Hk as (c & rest & -> & _ & _). reflexivity.
  - destruct parts as [|next parts].
    + cbn [String.concat existsb]. now rewrite orb_false_r.
    + change (String.concat " " (part :: next :: parts))
        with (part ++ " " ++ String.concat " " (next :: parts))%string.
      rewrite append_cons, append_nil.
      rewrite (contains_across_space _ _ _ Hk), IH. reflexivity.
Qed.

Lemma existsb_Permutation {A} (f : A -> bool) (l l' : list A) :
  Permutation l l' -> existsb f l = existsb f l'.
Proof.
  intros Hp. apply eq_true_iff_eq. rewrite !existsb_exists.
  split; intros (x & Hin & Hx); exists x; split; auto.
  - eapply Permutation_in; eauto.
  - eapply Permutation_in; [symmetry|]; eauto.
Qed.

Lemma scan_table_ext (table : list (string * list string)) (text text' : string) :
  (forall keyword, In keyword (table_keywords table) ->
                   Str.contains keyword text = Str.contains keyword text') ->
  scan_table table text = scan_table table text'.
Proof.
  induction table as [|[label keywords] rest IH]; intros Hsame; [reflexivity|].
  simpl. unfold table_keywords in Hsame. simpl in Hsame.
  assert (Str.any_in keywords text = Str.any_in keywords text') as ->.
  { unfold Str.any_in. clear IH. induction keywords as [|kw kws IHk]; [reflexivity|].
    simpl. rewrite (Hsame kw) by (now left). f_equal.
    apply IHk. intros k [Hk|Hk]%in_app_or; apply Hsame; simpl; auto using in_or_app. }
  rewrite IH; [reflexivity|]. intros k Hk. apply Hsame, in_or_app. now right.
Qed.

Lemma period_keywords_fields :
  forallb field_keyword (table_keywords DYNASTY_PERIODS) = true.
Proof. vm_compute. reflexivity. Qed.

Lemma origin_keywords_fields :
  forallb field_keyword (table_keywords GEOGRAPHIC_ORIGINS) = true.
Proof. vm_compute. reflexivity. Qed.

Lemma scan_table_fields (table : list (string * list string))
      (author source : string) (titles : list string)
      (author' source' : string) (titles' : list string) :
  forallb field_keyword (table_keywords table) = true ->
  (forall keyword,
      existsb (fun part => Str.contains keyword part) (author :: source :: titles) = true ->
      existsb (fun part => Str.contains keyword part) (author' :: source' :: titles') = true) ->
  forall keyword, In keyword (table_keywords table) ->
    Str.contains keyword (plain_text author source titles) = true ->
    Str.contains keyword (plain_text author' source' titles') = true.
Proof.
  intros Hall Hsub keyword Hin. rewrite forallb_forall in Hall.
  unfold plain_text. rewrite !contains_join by auto. apply Hsub.
Qed.

End SubstringFacts.

(** ** Further properties of the classifier *)

Lemma table_label_unique (table : list (string * list string))
      (label : string) (k1 k2 : list string) :
  NoDup (map fst table) -> In (label, k1) table -> In (label, k2) table -> k1 = k2.
Proof.
  induction table as [|[l k] rest IH]; intros Hnd H1 H2; [destruct H1|].
  simpl in Hnd. apply NoDup_cons in Hnd. destruct Hnd as [Hfresh Hnd].
  assert (Hin : forall k', In (l, k') rest -> False).
  { intros k' Hk'. apply Hfresh, list_elem_of_In, in_map_iff. exists (l, k'). auto. }
  destruct H1 as [E1|H1], H2 as [E2|H2].
  - congruence.
  - exfalso. assert (l = label) as -> by congruence. eauto.
  - exfalso. assert (l = label) as -> by congruence. eauto.
  - now apply IH.
Qed.

Lemma tradition_labels_NoDup : NoDup (map fst TRADITION_CLASSIFICATIONS).
Proof. apply (bool_decide_unpack _). vm_compute. exact I. Qed.

Lemma sentinel_not_a_label :
  ~ In "General/Unspecified" (map fst TRADITION_CLASSIFICATIONS).
Proof.
  simpl. intros Hin. repeat (destruct Hin as [Hin|Hin]; [discriminate Hin|]). exact Hin.
Qed.

(** X1: a label of the tradition table is in the result of
    [classify_tradition] exactly when one of its own keywords, lowered,
    occurs in the lowered text; the other entries have no say, so several
    labels can be returned together. *)
Theorem X1_label_iff_own_keyword `{StrMethods}
        (titles : list string) (author source : string)
        (tradition : string) (keywords : list string) :
  In (tradition, keywords) TRADITION_CLASSIFICATIONS ->
  (In tradition (classify_tradition titles author source) <->
   tradition_hit (tradition_text titles author source) keywords = true).
Proof.
  intros Hentry.
  assert (Hlabel : In tradition (map fst TRADITION_CLASSIFICATIONS)).
  { apply in_map_iff. exists (tradition, keywords). auto. }
  unfold classify_tradition.
  destruct (decide _) as [Hempty|Hne].
  - split.
    + intros [<-|[]]. now apply sentinel_not_a_label in Hlabel.
    + intros Hhit. exfalso.
      assert (Hin : tradition ∈ tradition_loop TRADITION_CLASSIFICATIONS
                      (tradition_text titles author source) ∅).
      { apply tradition_loop_elem. right. eauto. }
      rewrite Hempty in Hin. now apply not_elem_of_empty in Hin.
  - rewrite <- list_elem_of_In, elem_of_elements, tradition_loop_elem. split.
    + intros [Hin|(kws & Hkws & Hhit)]; [now apply not_elem_of_empty in Hin|].
      now rewrite (table_label_unique _ _ _ _ tradition_labels_NoDup Hentry Hkws).
    + intros Hhit. right. eauto.
Qed.

Lemma X1_label_iff_own_keyword_witness :
  In "Commentarial" (@classify_tradition ascii_str ["六祖壇經"] "釋宗寶" "宋") <->
  @tradition_hit ascii_str (@tradition_text ascii_str ["六祖壇經"] "釋宗寶" "宋")
     ["註"; "疏"; "記"; "釋"; "解"; "論"; "鈔"] = true.
Proof.
  apply (@X1_label_iff_own_keyword ascii_str).
  do 11 right. left. reflexivity.
Defined.

(** X2: the result of [classify_tradition] never repeats a label, holds at
    least one and at most 14 labels, and each of them is the sentinel or a
    label of the table. *)
Theorem X2_tradition_result_shape `{StrMethods}
        (titles : list string) (author source : string) :
  let result := classify_tradition titles author source in
  NoDup result /\
  (1 <= List.length result <= 14)%nat /\
  Forall (fun label => label = "General/Unspecified" \/
                       In label (map fst TRADITION_CLASSIFICATIONS)) result.
Proof.
  intros result. unfold result, classify_tradition.
  destruct (decide _) as [Hempty|Hne].
  - split; [apply NoDup_singleton|]. split; [simpl; lia|].
    constructor; [now left | constructor].
  - set (found := tradition_loop TRADITION_CLASSIFICATIONS
                    (tradition_text titles author source) ∅) in *.
    assert (Hlabels : forall t, In t (elements found) ->
                                In t (map fst TRADITION_CLASSIFICATIONS)).
    { intros t Ht. apply (tradition_loop_labels (tradition_text titles author source)).
      apply elem_of_elements, list_elem_of_In, Ht. }
    split; [apply NoDup_elements|]. split.
    + split.
      * destruct (elements found) as [|x l] eqn:He; [|simpl; lia].
        exfalso. apply Hne. apply leibniz_equiv, elements_empty_iff, He.
      * change 14%nat with (List.length (map fst TRADITION_CLASSIFICATIONS)).
        apply NoDup_incl_length; [|exact Hlabels].
        apply NoDup_ListNoDup, NoDup_elements.
    + apply Forall_forall. intros t Ht. right. apply Hlabels, list_elem_of_In, Ht.
Qed.

(** X3: the period and the origin do not depend on the order of the fields:
    any rearrangement of author, source and titles is classified alike,
    because no keyword of the two tables can match across the spaces
    between fields. *)
Theorem X3_field_order_irrelevant
        (author source : string) (titles : list string)
        (author' source' : string) (titles' : list string) :
  Permutation (author :: source :: titles) (author' :: source' :: titles') ->
  classify_period author source titles = classify_period author' source' titles' /\
  classify_geographic author source titles =
  classify_geographic author' source' titles'.
Proof.
  intros Hperm.
  assert (Hscan : forall table,
             forallb field_keyword (table_keywords table) = true ->
             scan_table table (plain_text author source titles) =
             scan_table table (plain_text author' source' titles')).
  { intros table Hall. apply scan_table_ext. intros keyword Hin.
    rewrite forallb_forall in Hall. unfold plain_text.
    rewrite !contains_join by auto. apply existsb_Permutation, Hperm. }
  rewrite !classify_period_is_scan, !classify_geographic_is_scan.
  now rewrite (Hscan _ period_keywords_fields), (Hscan _ origin_keywords_fields).
Qed.

Lemma X3_field_order_irrelevant_witness :
  classify_period "唐 玄奘" "宋版" ["心經"; "天竺"] =
  classify_period "宋版" "唐 玄奘" ["心經"; "天竺"] /\
  classify_geographic "唐 玄奘" "宋版" ["心經"; "天竺"] =
  classify_geographic "宋版" "唐 玄奘" ["心經"; "天竺"].
Proof. apply X3_field_order_irrelevant. apply perm_swap. Defined.

Lemma entry_keyword_in_table (table : list (string * list string))
      (k : nat) (label : string) (keywords : list string) (keyword : string) :
  table !! k = Some (label, keywords) -> In keyword keywords ->
  In keyword (table_keywords table).
Proof.
  intros Hk Hin. unfold table_keywords. apply in_flat_map.
  exists (label, keywords). split; [|exact Hin].
  apply list_elem_of_In. eapply list_elem_of_lookup_2. exact Hk.
Qed.

(** Text that holds every keyword the old text held is settled by the same
    entry of the table or by an earlier one. *)
Lemma scan_table_earlier (table : list (string * list string)) (text text' : string)
      (k : nat) (label : string) :
  (forall keyword, In keyword (table_keywords table) ->
                   Str.contains keyword text = true ->
                   Str.contains keyword text' = true) ->
  first_match table text k label ->
  exists k' label', (k' <= k)%nat /\ scan_table table text' = Some label' /\
                    first_match table text' k' label'.
Proof.
  intros Hmore (keywords & Hk & Hhit & _).
  apply (scan_table_hit table text' k label keywords Hk).
  apply any_in_true in Hhit. destruct Hhit as (kw & Hin & Hc).
  apply any_in_true. exists kw. split; [exact Hin|].
  apply Hmore; [|exact Hc]. eapply entry_keyword_in_table; eauto.
Qed.

(** X4: further titles can only move a document to the same or an earlier
    entry of the table, never to a later one and never back to the
    sentinel: when entry [k] settles the period (origin) of a document,
    the document with more titles is settled by an entry at or before
    [k]. *)
Theorem X4_more_titles_never_later
        (author source : string) (titles more : list string) :
  (forall k label,
      first_match DYNASTY_PERIODS (plain_text author source titles) k label ->
      exists k', (k' <= k)%nat /\
                 first_match DYNASTY_PERIODS (plain_text author source (titles ++ more)) k'
                             (classify_period author source (titles ++ more))) /\
  (forall k label,
      first_match GEOGRAPHIC_ORIGINS (plain_text author source titles) k label ->
      exists k', (k' <= k)%nat /\
                 first_match GEOGRAPHIC_ORIGINS
                             (plain_text author source (titles ++ more)) k'
                             (classify_geographic author source (titles ++ more))).
Proof.
  assert (Hmore : forall keyword,
             existsb (fun part => Str.contains keyword part)
                     (author :: source :: titles) = true ->
             existsb (fun part => Str.contains keyword part)
                     (author :: source :: titles ++ more) = true).
  { intros keyword. rewrite !existsb_exists. intros (part & Hin & Hc).
    exists part. split; [|exact Hc].
    change (author :: source :: titles ++ more)
      with ((author :: source :: titles) ++ more).
    apply in_or_app. now left. }
  split; intros k label Hfirst.
  - destruct (scan_table_earlier DYNASTY_PERIODS _
                (plain_text author source (titles ++ more)) k label
                (scan_table_fields _ _ _ _ _ _ _ period_keywords_fields Hmore) Hfirst)
      as (k' & label' & Hle & Hscan & Hfm).
    exists k'. split; [exact Hle|]. now rewrite classify_period_is_scan, Hscan.
  - destruct (scan_table_earlier GEOGRAPHIC_ORIGINS _
                (plain_text author source (titles ++ more)) k label
                (scan_table_fields _ _ _ _ _ _ _ origin_keywords_fields Hmore) Hfirst)
      as (k' & label' & Hle & Hscan & Hfm).
    exists k'. split; [exact Hle|]. now rewrite classify_geographic_is_scan, Hscan.
Qed.

(** A Song text (entry 2) that gains a title naming 唐 is settled at an
    entry no later than 2. *)
Lemma X4_more_titles_never_later_witness :
  exists k', (k' <= 2)%nat /\
             first_match DYNASTY_PERIODS (plain_text "道原" "宋" (["傳燈錄"] ++ ["唐本"])) k'
                         (classify_period "道原" "宋" (["傳燈錄"] ++ ["唐本"])).
Proof.
  apply (proj1 (X4_more_titles_never_later "道原" "宋" ["傳燈錄"] ["唐本"]) 2%nat "Song").
  exists ["宋"; "北宋"; "南宋"]. split; [reflexivity|]. split; [reflexivity|].
  intros k' l' kws' Hlt Hk'.
  destruct k' as [|[|k']]; [| |lia]; injection Hk' as <- <-; reflexivity.
Defined.

Lemma any_in_shadowed (keywords kept : list string) (text : string) :
  (forall keyword, In keyword kept -> In keyword keywords) ->
  (forall keyword, In keyword keywords ->
     exists shorter, In shorter kept /\
       (Str.contains keyword text = true -> Str.contains shorter text = true)) ->
  Str.any_in keywords text = Str.any_in kept text.
Proof.
  intros Hsub Hshadow. apply eq_true_iff_eq. rewrite !any_in_true. split.
  - intros (kw & Hin & Hc). destruct (Hshadow kw Hin) as (shorter & Hs & Himp). eauto.
  - intros (kw & Hin & Hc). eauto.
Qed.

Lemma scan_table_entrywise (table table' : list (string * list string)) (text : string) :
  Forall2 (fun entry entry' =>
             fst entry = fst entry' /\
             Str.any_in (snd entry) text = Str.any_in (snd entry') text)
          table table' ->
  scan_table table text = scan_table table' text.
Proof.
  induction 1 as [|[l k] [l' k'] rest rest' [Hl Hk] _ IH]; [reflexivity|].
  simpl in *. subst l'. now rewrite Hk, IH.
Qed.

(** X5: the keywords 北魏, 北宋, 南宋 and 中華民國 of the period table, and
    中天竺, 北天竺 and 南天竺 of the origin table, never decide a
    classification: each contains a shorter keyword of its own entry, and
    both classifiers return the same label over the tables without them. *)
Theorem X5_shadowed_keywords (author source : string) (titles : list string) :
  classify_period author source titles =
    default "Unknown Period"
            (scan_table DYNASTY_PERIODS_effective (plain_text author source titles)) /\
  classify_geographic author source titles =
    default "Unknown Origin"
            (scan_table GEOGRAPHIC_ORIGINS_effective (plain_text author source titles)).
Proof.
  rewrite classify_period_is_scan, classify_geographic_is_scan.
  set (text := plain_text author source titles).
  assert (Hkeep : forall keywords kept keyword,
             In keyword kept -> In keyword keywords ->
             exists shorter, In shorter kept /\
               (Str.contains keyword text = true -> Str.contains shorter text = true))
    by (intros; eauto).
  split; f_equal; apply scan_table_entrywise;
    unfold DYNASTY_PERIODS, DYNASTY_PERIODS_effective,
           GEOGRAPHIC_ORIGINS, GEOGRAPHIC_ORIGINS_effective;
    repeat (constructor; [split; [reflexivity|]; cbn [snd]; try reflexivity |]);
    try constructor.
  - apply any_in_shadowed; [intros kw Hin; simpl in Hin |- *; tauto|].
    intros kw Hin. simpl in Hin.
    destruct (decide (kw = "北魏")) as [->|Hne].
    + exists "魏". split; [simpl; tauto | apply (contains_suffix "北" "魏")].
    + exists kw. split; [simpl; intuition congruence | auto].
  - apply any_in_shadowed; [intros kw Hin; simpl in Hin |- *; tauto|].
    intros kw Hin. exists "宋". split; [now left|].
    simpl in Hin. destruct Hin as [<-|[<-|[<-|[]]]]; auto.
    + apply (contains_suffix "北" "宋").
    + apply (contains_suffix "南" "宋").
  - apply any_in_shadowed; [intros kw Hin; simpl in Hin |- *; tauto|].
    intros kw Hin. simpl in Hin. destruct Hin as [<-|[<-|[<-|[]]]].
    + exists "民國". split; [now left | auto].
    + exists "民國". split; [now left | apply (contains_suffix "中華" "民國")].
    + exists "現代". split; [right; now left | auto].
  - apply any_in_shadowed; [intros kw Hin; simpl in Hin |- *; tauto|].
    intros kw Hin. simpl in Hin.
    destruct Hin as [<-|[<-|[<-|[<-|[<-|[<-|[]]]]]]].
    + exists "印度". split; [now left | auto].
    + exists "天竺". split; [right; now left | auto].
    + exists "天竺". split; [right; now left | apply (contains_suffix "中" "天竺")].
    + exists "天竺". split; [right; now left | apply (contains_suffix "北" "天竺")].
    + exists "天竺". split; [right; now left | apply (contains_suffix "南" "天竺")].
    + exists "西天". split; [right; right; now left | auto].
Qed.

(** ** Further properties of the extractor *)

Lemma upper_run_spec (s : string) :
  exists rest,
    s = (Str.upper_run s ++ rest)%string /\
    Str.upper_run (Str.upper_run s) = Str.upper_run s /\
    match rest with
    | String c _ => Str.is_ascii_upper c = false
    | EmptyString => True
    end.
Proof.
  induction s as [|c s (rest & Hs & Hidem & Hstop)]; cbn [Str.upper_run].
  - exists EmptyString. repeat split.
  - destruct (Str.is_ascii_upper c) eqn:Hc.
    + exists rest. rewrite append_cons, <- Hs. repeat split; [|exact Hstop].
      cbn [Str.upper_run]. now rewrite Hc, Hidem.
    + exists (String c s). rewrite append_nil. repeat split. exact Hc.
Qed.

Section ExtractorFacts.
Context `{StrMethods}.
Variable os_sep : ascii.
Variable ET_parse : string -> string + Element.
Variable canon_info : gmap string json.

Local Abbreviation extract p := (extract_metadata os_sep ET_parse p canon_info).

(** What a successful extraction put into the identifier, the canon code
    and the canon name. *)
Lemma extract_inversion (path : string) (root : Element) (m : Metadata.t) :
  ET_parse path = inr root ->
  extract path = Extracted m ->
  let from_id :=
    if Str.truthy (Metadata.xml_id m) then Str.match_upper (Metadata.xml_id m)
    else None in
  Metadata.xml_id m = ET.get root "xml:id" EmptyString /\
  Metadata.canon_code m =
    (if code_truthy from_id then from_id
     else List.find (fun part => bool_decide (is_Some (canon_info !! part)))
                    (Str.split os_sep path)) /\
  (if code_truthy (Metadata.canon_code m)
   then match canon_info !! default EmptyString (Metadata.canon_code m) with
        | Some (JObject fields) =>
            Metadata.canon_name m =
            default (JString (default EmptyString (Metadata.canon_code m)))
                    (fields !! "title-zh")
        | Some _ => False
        | None => Metadata.canon_name m =
                  JString (default EmptyString (Metadata.canon_code m))
        end
   else Metadata.canon_name m = JString "Unknown").
Proof.
  intros Hp. unfold extract_metadata. rewrite Hp. cbv zeta.
  match goal with
  | |- match ?nm with inl _ => _ | inr _ => _ end = _ -> _ =>
      destruct nm as [e|cname] eqn:Hname
  end; [discriminate|].
  intros [= <-]. cbn [Metadata.xml_id Metadata.canon_code Metadata.canon_name].
  split; [reflexivity|]. split; [reflexivity|].
  match type of Hname with
  | match ?code with Some _ => _ | None => _ end = _ => destruct code as [c|]
  end; cbn [code_truthy default from_option id].
  - destruct (Str.truthy c); [|now injection Hname as <-].
    destruct (canon_info !! c) as [v|]; cbn [default from_option id] in Hname.
    + destruct v; try discriminate Hname. now injection Hname as <-.
    + now injection Hname as <-.
  - now injection Hname as <-.
Qed.

Lemma match_upper_truthy (s code : string) :
  Str.match_upper s = Some code -> Str.truthy s = true /\ Str.truthy code = true.
Proof.
  unfold Str.match_upper. destruct s as [|c s]; [discriminate|].
  destruct (Str.upper_run (String c s)); [discriminate|].
  intros [= <-]. split; reflexivity.
Qed.

End ExtractorFacts.

(** X6: when every entry of the canon registry is a JSON object (in
    particular for the empty registry), extraction fails only when parsing
    does: every parsed document yields metadata, whatever it lacks - no
    identifier, no title, no author, no source. *)
Theorem X6_parsed_document_extracts `{StrMethods} (os_sep : ascii)
        (ET_parse : string -> string + Element) (canon_info : gmap string json)
        (path : string) (root : Element) :
  (forall code v, canon_info !! code = Some v -> no_get_attribute v = None) ->
  ET_parse path = inr root ->
  exists m, extract_metadata os_sep ET_parse path canon_info = Extracted m /\
            Metadata.file_path m = path.
Proof.
  intros Hobj Hp.
  assert (Hex : exists m, extract_metadata os_sep ET_parse path canon_info = Extracted m).
  { unfold extract_metadata. rewrite Hp. cbv zeta.
    match goal with
    | |- context [match ?name with inl _ => _ | inr _ => _ end] =>
        destruct name eqn:Hname
    end; [|eauto].
    exfalso.
    match type of Hname with
    | match ?code with Some _ => _ | None => _ end = _ => destruct code as [c|]
    end; [|discriminate].
    destruct (Str.truthy c); [|discriminate].
    destruct (canon_info !! c) as [v|] eqn:Hv; simpl in Hname; [|discriminate].
    specialize (Hobj c v Hv).
    destruct v; simpl in Hobj; try discriminate Hobj. discriminate Hname. }
  destruct Hex as (m & Hm). exists m. split; [exact Hm|].
  eapply extract_file_path. exact Hm.
Qed.

Lemma X6_parsed_document_extracts_witness :
  exists m,
    @extract_metadata ascii_str "/" (fun _ => inr (Sample.tei "TEI" ∅ None []))
                      "empty.xml" Sample.registry = Extracted m /\
    Metadata.file_path m = "empty.xml".
Proof.
  apply (@X6_parsed_document_extracts ascii_str "/"
           (fun _ => inr (Sample.tei "TEI" ∅ None [])) Sample.registry
           "empty.xml" (Sample.tei "TEI" ∅ None [])); [|reflexivity].
  intros code v Hv. unfold Sample.registry in Hv.
  apply lookup_singleton_Some in Hv. destruct Hv as [_ <-]. reflexivity.
Defined.

(** X7: a registry entry that is not a JSON object makes every document
    whose canon code it names fail: [canon_info.get(code, {}).get(...)]
    raises AttributeError, which the handler turns into the error value. *)
Theorem X7_flat_registry_entry_fails `{StrMethods} (os_sep : ascii)
        (ET_parse : string -> string + Element) (canon_info : gmap string json)
        (path code reason : string) (root : Element) (entry : json) :
  ET_parse path = inr root ->
  ET.attrib root !! "xml:id" = None ->
  List.find (fun part => bool_decide (is_Some (canon_info !! part)))
            (Str.split os_sep path) = Some code ->
  Str.truthy code = true ->
  canon_info !! code = Some entry ->
  no_get_attribute entry = Some reason ->
  extract_metadata os_sep ET_parse path canon_info = ExtractionError reason.
Proof.
  intros Hp Hid Hfind Hcode Hentry Hreason.
  unfold extract_metadata. rewrite Hp. cbv zeta.
  unfold ET.get. rewrite Hid. cbn [Str.truthy code_truthy].
  rewrite Hfind, Hcode, Hentry. cbn [default from_option id].
  destruct entry; simpl in Hreason; try discriminate Hreason;
    injection Hreason as <-; reflexivity.
Qed.

Lemma X7_flat_registry_entry_fails_witness :
  @extract_metadata ascii_str "/" Sample.fs "T/T01/doc.xml" Sample.flat_registry =
  ExtractionError "'str' object has no attribute 'get'".
Proof.
  apply (@X7_flat_registry_entry_fails ascii_str "/" Sample.fs Sample.flat_registry
           "T/T01/doc.xml" "T" "'str' object has no attribute 'get'"
           Sample.root_T0001 (JString "Taishō")); reflexivity.
Defined.

(** X8: where the canon code of an extracted document comes from.  When the
    identifier the code read begins with capitals A-Z, the code is that
    leading run - not empty, a prefix of the identifier, followed by no
    further capital - and neither path nor registry is consulted.
    Otherwise the code is the first path segment that is a key of the
    registry, and there is no code when no segment is one. *)
Theorem X8_canon_code_provenance `{StrMethods} (os_sep : ascii)
        (ET_parse : string -> string + Element) (canon_info : gmap string json)
        (path : string) (m : Metadata.t) :
  extract_metadata os_sep ET_parse path canon_info = Extracted m ->
  match Str.match_upper (Metadata.xml_id m) with
  | Some run =>
      Metadata.canon_code m = Some run /\ Str.truthy run = true /\
      Str.upper_run run = run /\
      exists rest, Metadata.xml_id m = (run ++ rest)%string /\
                   match rest with
                   | String c _ => Str.is_ascii_upper c = false
                   | EmptyString => True
                   end
  | None =>
      match Metadata.canon_code m with
      | Some segment =>
          In segment (Str.split os_sep path) /\ is_Some (canon_info !! segment)
      | None =>
          forall segment, In segment (Str.split os_sep path) ->
                          canon_info !! segment = None
      end
  end.
Proof.
  intros Hx. destruct (extract_parsed os_sep ET_parse canon_info path m Hx) as (root & Hp).
  destruct (extract_inversion os_sep ET_parse canon_info path root m Hp Hx)
    as (_ & Hcode & _).
  destruct (Str.match_upper (Metadata.xml_id m)) as [run|] eqn:Hrun.
  - destruct (match_upper_truthy _ _ Hrun) as [Hid Htruthy].
    rewrite Hid in Hcode. cbn [code_truthy] in Hcode. rewrite Htruthy in Hcode.
    split; [exact Hcode|]. split; [exact Htruthy|].
    destruct (upper_run_spec (Metadata.xml_id m)) as (rest & Hs & Hidem & Hstop).
    unfold Str.match_upper in Hrun.
    destruct (Str.upper_run (Metadata.xml_id m)) as [|c r] eqn:Hur; [discriminate|].
    injection Hrun as <-. split; [exact Hidem|]. exists rest. auto.
  - assert (Hfind : Metadata.canon_code m =
                    List.find (fun part => bool_decide (is_Some (canon_info !! part)))
                              (Str.split os_sep path)).
    { rewrite Hcode. now destruct (Str.truthy (Metadata.xml_id m)). }
    rewrite Hfind.
    destruct (List.find _ _) as [segment|] eqn:Hf.
    + apply find_some in Hf. destruct Hf as [Hin Hkey].
      split; [exact Hin|]. now apply bool_decide_eq_true in Hkey.
    + intros segment Hin. pose proof (find_none _ _ Hf segment Hin) as Hno.
      apply bool_decide_eq_false in Hno.
      destruct (canon_info !! segment); [exfalso; apply Hno; eauto | reflexivity].
Qed.

Lemma X8_canon_code_provenance_witness :
  Metadata.canon_code
    (Metadata.mk "T0001_foo" (Some "T") (JString "大正新脩大藏經")
                 ["六祖壇經"] "釋宗寶" "宋" "built.xml") = Some "T" /\
  Str.truthy "T" = true /\ Str.upper_run "T" = "T" /\
  exists rest, "T0001_foo" = ("T" ++ rest)%string /\
               match rest with
               | String c _ => Str.is_ascii_upper c = false
               | EmptyString => True
               end.
Proof.
  apply (@X8_canon_code_provenance ascii_str "/" Sample.fs Sample.registry "built.xml"
           (Metadata.mk "T0001_foo" (Some "T") (JString "大正新脩大藏經")
                        ["六祖壇經"] "釋宗寶" "宋" "built.xml")).
  vm_compute. reflexivity.
Defined.

(** X9: the canon name of an extracted document.  Without a non-empty canon
    code it is Unknown; with a code the registry does not know it is the
    code itself; with a code whose registry entry is an object it is the
    entry's [title-zh], or the code when the entry has none. *)
Theorem X9_canon_name `{StrMethods} (os_sep : ascii)
        (ET_parse : string -> string + Element) (canon_info : gmap string json)
        (path : string) (m : Metadata.t) :
  extract_metadata os_sep ET_parse path canon_info = Extracted m ->
  match Metadata.canon_code m with
  | Some code =>
      if Str.truthy code then
        match canon_info !! code with
        | None => Metadata.canon_name m = JString code
        | Some entry =>
            exists fields, entry = JObject fields /\
              Metadata.canon_name m = default (JString code) (fields !! "title-zh")
        end
      else Metadata.canon_name m = JString "Unknown"
  | None => Metadata.canon_name m = JString "Unknown"
  end.
Proof.
  intros Hx. destruct (extract_parsed os_sep ET_parse canon_info path m Hx) as (root & Hp).
  destruct (extract_inversion os_sep ET_parse canon_info path root m Hp Hx)
    as (_ & _ & Hname).
  destruct (Metadata.canon_code m) as [code|]; cbn [code_truthy default from_option id] in Hname;
    [|exact Hname].
  destruct (Str.truthy code); [|exact Hname].
  destruct (canon_info !! code) as [entry|]; [|exact Hname].
  destruct entry; try contradiction. eauto.
Qed.

Lemma X9_canon_name_witness :
  exists fields,
    JObject {[ "title-zh" := JString "大正新脩大藏經" ]} = JObject fields /\
    JString "大正新脩大藏經" = default (JString "T") (fields !! "title-zh").
Proof.
  pose proof (@X9_canon_name ascii_str "/" Sample.fs Sample.registry "T/T01/doc.xml"
                (Metadata.mk EmptyString (Some "T") (JString "大正新脩大藏經")
                             ["六祖壇經"] "釋宗寶" "宋" "T/T01/doc.xml")) as Hname.
  cbn [Metadata.canon_code Metadata.canon_name Str.truthy] in Hname.
  unfold Sample.registry in Hname. rewrite lookup_singleton_eq in Hname.
  apply Hname. vm_compute. reflexivity.
Defined.

(** ** What the indices hold *)

Section GroupFacts.

Lemma index_append_lookup (key path k : string) (index : gmap string (list string)) :
  index_append key path index !! k =
  if bool_decide (key = k) then Some (default [] (index !! k) ++ [path])
  else index !! k.
Proof.
  unfold index_append. case_bool_decide as Hk.
  - subst k. apply lookup_insert_eq.
  - now apply lookup_insert_ne.
Qed.

Lemma index_fold_lookup (path k : string) (keys : list string)
      (index : gmap string (list string)) :
  NoDup keys ->
  fold_left (fun index key => index_append key path index) keys index !! k =
  if bool_decide (k ∈ keys) then Some (default [] (index !! k) ++ [path])
  else index !! k.
Proof.
  intros Hnd. revert index.
  induction Hnd as [|key keys Hfresh Hnd IH]; intros index; cbn [fold_left].
  - now rewrite bool_decide_eq_false_2 by apply not_elem_of_nil.
  - rewrite IH, index_append_lookup.
    destruct (decide (k ∈ keys)) as [Hin|Hout].
    + assert (Hne : key <> k) by (intros ->; contradiction).
      rewrite (bool_decide_eq_true_2 _ Hin), (bool_decide_eq_false_2 _ Hne).
      rewrite bool_decide_eq_true_2 by (now apply list_elem_of_further).
      reflexivity.
    + rewrite (bool_decide_eq_false_2 _ Hout).
      destruct (decide (key = k)) as [->|Hne].
      * rewrite (bool_decide_eq_true_2 (k = k) eq_refl).
        rewrite bool_decide_eq_true_2 by apply list_elem_of_here. reflexivity.
      * rewrite (bool_decide_eq_false_2 _ Hne).
        rewrite bool_decide_eq_false_2; [reflexivity|].
        intros [Heq|Hin]%elem_of_cons; [now subst | contradiction].
Qed.

Lemma group_paths_nil (belongs : Metadata.t -> bool) : group_paths belongs [] = None.
Proof. reflexivity. Qed.

Lemma group_paths_snoc (belongs : Metadata.t -> bool) (docs : list Metadata.t)
      (m : Metadata.t) :
  group_paths belongs (docs ++ [m]) =
  if belongs m
  then Some (default [] (group_paths belongs docs) ++ [Metadata.file_path m])
  else group_paths belongs docs.
Proof.
  unfold group_paths. rewrite List.filter_app, map_app. cbn [List.filter].
  destruct (belongs m); cbn [map]; [|now rewrite app_nil_r].
  destruct (map Metadata.file_path (List.filter belongs docs)) as [|p ps]; reflexivity.
Qed.

Lemma group_paths_Some (belongs : Metadata.t -> bool) (docs : list Metadata.t)
      (paths : list string) :
  group_paths belongs docs = Some paths ->
  paths = map Metadata.file_path (List.filter belongs docs) /\
  exists m, In m docs /\ belongs m = true.
Proof.
  unfold group_paths.
  destruct (List.filter belongs docs) as [|m ms] eqn:Hf; [discriminate|].
  cbn [map]. intros [= <-]. split; [reflexivity|].
  assert (Hin : In m (List.filter belongs docs)) by (rewrite Hf; now left).
  apply filter_In in Hin. eauto.
Qed.

Lemma filter_Permutation {A} (f : A -> bool) (l l' : list A) :
  Permutation l l' -> Permutation (List.filter f l) (List.filter f l').
Proof.
  induction 1 as [|x l l' _ IH|x y l|l l' l'' _ IH1 _ IH2]; cbn [List.filter].
  - constructor.
  - destruct (f x); [now constructor | exact IH].
  - destruct (f x), (f y); try reflexivity. apply perm_swap.
  - now transitivity (List.filter f l').
Qed.

Lemma group_paths_Permutation (belongs : Metadata.t -> bool)
      (docs docs' : list Metadata.t) :
  Permutation docs docs' ->
  option_Forall2 Permutation (group_paths belongs docs) (group_paths belongs docs').
Proof.
  intros Hp.
  assert (Hperm : Permutation (map Metadata.file_path (List.filter belongs docs))
                              (map Metadata.file_path (List.filter belongs docs')))
    by now apply Permutation_map, filter_Permutation.
  unfold group_paths.
  destruct (map Metadata.file_path (List.filter belongs docs)) as [|p ps].
  - apply Permutation_nil in Hperm. rewrite Hperm. constructor.
  - destruct (map Metadata.file_path (List.filter belongs docs')) as [|q qs].
    + symmetry in Hperm. apply Permutation_nil in Hperm. discriminate Hperm.
    + now constructor.
Qed.

Lemma counter_total_empty : counter_total ∅ = 0%nat.
Proof. apply map_fold_empty. Qed.

Lemma counter_total_insert (key : string) (n : nat) (counter : gmap string nat) :
  counter !! key = None ->
  counter_total (<[key := n]> counter) = (n + counter_total counter)%nat.
Proof.
  intros Hnone. unfold counter_total.
  apply (map_fold_insert_L (fun _ n total => (n + total)%nat)); [|exact Hnone].
  intros. lia.
Qed.

Lemma counter_total_incr (key : string) (counter : gmap string nat) :
  counter_total (counter_incr key counter) = S (counter_total counter).
Proof.
  unfold counter_incr. destruct (counter !! key) as [n|] eqn:Hk; cbn [default from_option id].
  - rewrite <- (insert_delete_eq counter).
    rewrite counter_total_insert by apply lookup_delete_eq.
    rewrite <- (insert_delete_id counter key n Hk) at 2.
    rewrite counter_total_insert by apply lookup_delete_eq. lia.
  - now rewrite counter_total_insert.
Qed.

Lemma counter_total_fold (keys : list string) (counter : gmap string nat) :
  counter_total (fold_left (fun c key => counter_incr key c) keys counter) =
  (List.length keys + counter_total counter)%nat.
Proof.
  revert counter. induction keys as [|key keys IH]; intros counter; cbn [fold_left].
  - reflexivity.
  - rewrite IH, counter_total_incr. simpl. lia.
Qed.

End GroupFacts.

Lemma classify_tradition_NoDup `{StrMethods}
      (titles : list string) (author source : string) :
  NoDup (classify_tradition titles author source).
Proof.
  unfold classify_tradition. destruct (decide _); [apply NoDup_singleton|].
  apply NoDup_elements.
Qed.

Lemma classify_tradition_nonempty `{StrMethods}
      (titles : list string) (author source : string) :
  (1 <= List.length (classify_tradition titles author source))%nat.
Proof.
  unfold classify_tradition. destruct (decide _) as [|Hne]; [simpl; lia|].
  destruct (elements _) as [|x l] eqn:He; [|simpl; lia].
  exfalso. apply Hne. apply leibniz_equiv, elements_empty_iff, He.
Qed.

Lemma classify_period_range (author source : string) (titles : list string) :
  In (classify_period author source titles)
     (map fst DYNASTY_PERIODS ++ ["Unknown Period"]).
Proof.
  rewrite classify_period_is_scan.
  pose proof (scan_default_cases DYNASTY_PERIODS (plain_text author source titles)
                                 "Unknown Period") as Hc.
  apply in_or_app. destruct (Str.any_in _ _); [now left | right; left; now rewrite Hc].
Qed.

Lemma classify_geographic_range (author source : string) (titles : list string) :
  In (classify_geographic author source titles)
     (map fst GEOGRAPHIC_ORIGINS ++ ["Unknown Origin"]).
Proof.
  rewrite classify_geographic_is_scan.
  pose proof (scan_default_cases GEOGRAPHIC_ORIGINS (plain_text author source titles)
                                 "Unknown Origin") as Hc.
  apply in_or_app. destruct (Str.any_in _ _); [now left | right; left; now rewrite Hc].
Qed.

Section WalkerGroups.
Context `{StrMethods}.
Variable os_sep : ascii.
Variable ET_parse : string -> string + Element.
Variable canon_info : gmap string json.

Local Abbreviation extract p := (extract_metadata os_sep ET_parse p canon_info).
Local Abbreviation step := (loop_body os_sep ET_parse canon_info).
Local Abbreviation walked xs := (walk os_sep ET_parse canon_info xs).
Local Abbreviation docs xs := (extracted_documents os_sep ET_parse canon_info xs).

Lemma extracted_snoc (xml_files : list string) (xml_file : string) :
  docs (xml_files ++ [xml_file]) =
  docs xml_files ++
  match extract xml_file with Extracted m => [m] | ExtractionError _ => [] end.
Proof.
  unfold extracted_documents. rewrite omap_app. f_equal.
  cbn [omap list_omap]. now destruct (extract xml_file).
Qed.

(** The shape shared by the inductions below: a fact about the results
    that holds at the start and survives a turn of the loop holds after the
    walk. *)
Lemma walk_ind (P : Results.t -> list Metadata.t -> Prop) :
  P Results.empty [] ->
  (forall w ds path m,
      P (results w) ds -> extract path = Extracted m ->
      P (results (step w path)) (ds ++ [m])) ->
  forall xml_files, P (results (walked xml_files)) (docs xml_files).
Proof.
  intros Hinit Hstep xml_files.
  induction xml_files as [|xml_file xml_files IH] using rev_ind; [exact Hinit|].
  rewrite walk_snoc, extracted_snoc.
  destruct (extract xml_file) as [m|e] eqn:Hx.
  - now apply Hstep.
  - rewrite app_nil_r, loop_body_error by (now rewrite Hx). exact IH.
Qed.

Lemma walk_details (xml_files : list string) :
  Results.detailed_analysis (results (walked xml_files)) =
  map detail_record (docs xml_files).
Proof.
  apply (walk_ind (fun r ds => Results.detailed_analysis r = map detail_record ds));
    [reflexivity|].
  intros w ds path m IH Hx. rewrite (loop_body_extracted _ _ _ w path m Hx). cbv zeta.
  cbn [Results.detailed_analysis]. now rewrite IH, map_app.
Qed.

Lemma walk_by_period (xml_files : list string) (key : string) :
  Results.by_period (results (walked xml_files)) !! key =
  group_paths (fun m => bool_decide (period_of m = key)) (docs xml_files).
Proof.
  apply (walk_ind (fun r ds =>
           Results.by_period r !! key =
           group_paths (fun m => bool_decide (period_of m = key)) ds));
    [apply lookup_empty|].
  intros w ds path m IH Hx. rewrite (loop_body_extracted _ _ _ w path m Hx). cbv zeta.
  cbn [Results.by_period]. rewrite index_append_lookup, group_paths_snoc, IH.
  reflexivity.
Qed.

Lemma walk_by_origin (xml_files : list string) (key : string) :
  Results.by_origin (results (walked xml_files)) !! key =
  group_paths (fun m => bool_decide (origin_of m = key)) (docs xml_files).
Proof.
  apply (walk_ind (fun r ds =>
           Results.by_origin r !! key =
           group_paths (fun m => bool_decide (origin_of m = key)) ds));
    [apply lookup_empty|].
  intros w ds path m IH Hx. rewrite (loop_body_extracted _ _ _ w path m Hx). cbv zeta.
  cbn [Results.by_origin]. rewrite index_append_lookup, group_paths_snoc, IH.
  reflexivity.
Qed.

Lemma walk_by_tradition (xml_files : list string) (key : string) :
  Results.by_tradition (results (walked xml_files)) !! key =
  group_paths (fun m => bool_decide (key ∈ traditions_of m)) (docs xml_files).
Proof.
  apply (walk_ind (fun r ds =>
           Results.by_tradition r !! key =
           group_paths (fun m => bool_decide (key ∈ traditions_of m)) ds));
    [apply lookup_empty|].
  intros w ds path m IH Hx. rewrite (loop_body_extracted _ _ _ w path m Hx). cbv zeta.
  cbn [Results.by_tradition].
  rewrite index_fold_lookup by apply classify_tradition_NoDup.
  rewrite group_paths_snoc, IH. reflexivity.
Qed.

Lemma canon_update_lookup (code path : string) (traditions : list string)
      (period origin : string) (by_canon : gmap string CanonGroup.t) (key : string) :
  CanonGroup.files <$> canon_update code path traditions period origin by_canon !! key =
  if bool_decide (code = key)
  then Some (default [] (CanonGroup.files <$> by_canon !! key) ++ [path])
  else CanonGroup.files <$> by_canon !! key.
Proof.
  unfold canon_update. case_bool_decide as Hk.
  - subst key. rewrite lookup_insert_eq. cbn [fmap option_fmap option_map CanonGroup.files].
    now destruct (by_canon !! code).
  - now rewrite lookup_insert_ne.
Qed.

Lemma walk_by_canon (xml_files : list string) (key : string) :
  CanonGroup.files <$> Results.by_canon (results (walked xml_files)) !! key =
  if Str.truthy key
  then group_paths (fun m => bool_decide (Metadata.canon_code m = Some key))
                   (docs xml_files)
  else None.
Proof.
  apply (walk_ind (fun r ds =>
           CanonGroup.files <$> Results.by_canon r !! key =
           if Str.truthy key
           then group_paths (fun m => bool_decide (Metadata.canon_code m = Some key)) ds
           else None)).
  { unfold Results.empty. cbn [Results.by_canon]. rewrite lookup_empty.
    now destruct (Str.truthy key). }
  intros w ds path m IH Hx. rewrite (loop_body_extracted _ _ _ w path m Hx). cbv zeta.
  cbn [Results.by_canon]. rewrite group_paths_snoc.
  destruct (Metadata.canon_code m) as [code|]; cbn [code_truthy default from_option id].
  - destruct (Str.truthy code) eqn:Hcode.
    + rewrite canon_update_lookup, IH.
      destruct (decide (code = key)) as [->|Hne].
      * rewrite Hcode, !bool_decide_eq_true_2 by reflexivity. reflexivity.
      * rewrite !bool_decide_eq_false_2 by congruence. reflexivity.
    + rewrite IH. destruct (Str.truthy key) eqn:Hkey; [|reflexivity].
      rewrite bool_decide_eq_false_2; [reflexivity|]. intros [= ->]. congruence.
  - rewrite IH. destruct (Str.truthy key); [|reflexivity].
    now rewrite bool_decide_eq_false_2.
Qed.

Lemma walk_by_canon_consistent (xml_files : list string) (key : string)
      (g : CanonGroup.t) :
  Results.by_canon (results (walked xml_files)) !! key = Some g ->
  canon_group_consistent g.
Proof.
  revert key g.
  apply (walk_ind (fun r _ => forall key g,
           Results.by_canon r !! key = Some g -> canon_group_consistent g)).
  { intros key g Hg. unfold Results.empty in Hg. cbn [Results.by_canon] in Hg.
    rewrite lookup_empty in Hg. discriminate Hg. }
  intros w ds path m IH Hx key g.
  rewrite (loop_body_extracted _ _ _ w path m Hx). cbv zeta. cbn [Results.by_canon].
  destruct (code_truthy (Metadata.canon_code m)); [|apply IH].
  unfold canon_update.
  destruct (decide (default EmptyString (Metadata.canon_code m) = key)) as [<-|Hne];
    [|rewrite lookup_insert_ne by exact Hne; apply IH].
  rewrite lookup_insert_eq. intros [= <-].
  assert (Hold : counter_total (CanonGroup.periods
                   (default CanonGroup.empty
                      (Results.by_canon (results w)
                         !! default EmptyString (Metadata.canon_code m)))) =
                 List.length (CanonGroup.files
                   (default CanonGroup.empty
                      (Results.by_canon (results w)
                         !! default EmptyString (Metadata.canon_code m)))) /\
                 counter_total (CanonGroup.origins
                   (default CanonGroup.empty
                      (Results.by_canon (results w)
                         !! default EmptyString (Metadata.canon_code m)))) =
                 List.length (CanonGroup.files
                   (default CanonGroup.empty
                      (Results.by_canon (results w)
                         !! default EmptyString (Metadata.canon_code m)))) /\
                 (List.length (CanonGroup.files
                   (default CanonGroup.empty
                      (Results.by_canon (results w)
                         !! default EmptyString (Metadata.canon_code m)))) <=
                  counter_total (CanonGroup.traditions
                   (default CanonGroup.empty
                      (Results.by_canon (results w)
                         !! default EmptyString (Metadata.canon_code m)))))%nat).
  { destruct (Results.by_canon (results w)
                !! default EmptyString (Metadata.canon_code m)) as [old|] eqn:Hold.
    - destruct (IH _ _ Hold) as (_ & Hp & Ho & Ht). auto.
    - cbn [default from_option id CanonGroup.empty CanonGroup.periods CanonGroup.origins
           CanonGroup.traditions CanonGroup.files].
      rewrite counter_total_empty. simpl. auto. }
  destruct Hold as (Hp & Ho & Ht).
  pose proof (classify_tradition_nonempty (Metadata.titles m) (Metadata.author m)
                                          (Metadata.source m)) as Hone.
  unfold canon_group_consistent.
  cbn [CanonGroup.files CanonGroup.periods CanonGroup.origins CanonGroup.traditions].
  rewrite !length_app, !counter_total_incr, counter_total_fold, Hp, Ho.
  cbn [List.length]. repeat split; lia.
Qed.

End WalkerGroups.

Lemma classify_tradition_range `{StrMethods}
      (titles : list string) (author source : string) (label : string) :
  In label (classify_tradition titles author source) ->
  In label (map fst TRADITION_CLASSIFICATIONS ++ ["General/Unspecified"]).
Proof.
  unfold classify_tradition. destruct (decide _) as [|Hne]; intros Hin; apply in_or_app.
  - right. exact Hin.
  - left. apply (tradition_loop_labels (tradition_text titles author source)).
    apply elem_of_elements, list_elem_of_In, Hin.
Qed.

Lemma size_bounded {A} (m : gmap string A) (keys : list string) :
  NoDup keys ->
  (forall key, is_Some (m !! key) -> In key keys) ->
  (size m <= List.length keys)%nat.
Proof.
  intros Hnd Hkeys.
  rewrite <- (size_dom (D := gset string) m).
  rewrite <- (size_list_to_set (C := gset string) keys Hnd).
  apply subseteq_size. intros key Hkey.
  apply elem_of_list_to_set, list_elem_of_In, Hkeys, elem_of_dom, Hkey.
Qed.

Lemma extracted_or_failed `{StrMethods} (os_sep : ascii)
      (ET_parse : string -> string + Element) (canon_info : gmap string json)
      (xml_files : list string) :
  List.length xml_files =
  (List.length (extracted_documents os_sep ET_parse canon_info xml_files) +
   List.length (List.filter
                  (fun xml_file =>
                     is_error (extract_metadata os_sep ET_parse xml_file canon_info))
                  xml_files))%nat.
Proof.
  unfold extracted_documents.
  induction xml_files as [|xml_file xml_files IH]; [reflexivity|].
  cbn [omap list_omap List.filter List.length].
  destruct (extract_metadata os_sep ET_parse xml_file canon_info);
    cbn [is_error List.length]; lia.
Qed.

(** ** Properties of the walk *)

(** X10: the detail records of the result are those of the documents that
    extract, one each and in corpus order; [total_files] counts every file,
    so the number of skipped documents is [total_files] minus the number of
    detail records. *)
Theorem X10_detail_records `{StrMethods} (os_sep : ascii)
        (ET_parse : string -> string + Element) (canon_info : gmap string json)
        (xml_files : list string) :
  let r := analyze_buddhist_metadata os_sep ET_parse canon_info xml_files in
  Results.detailed_analysis r =
    map detail_record (extracted_documents os_sep ET_parse canon_info xml_files) /\
  Results.summary r !! "total_files" = Some (List.length xml_files) /\
  List.length xml_files =
    (List.length (Results.detailed_analysis r) +
     List.length (List.filter
                    (fun xml_file =>
                       is_error (extract_metadata os_sep ET_parse xml_file canon_info))
                    xml_files))%nat.
Proof.
  intros r. unfold r, analyze_buddhist_metadata.
  cbn [Results.detailed_analysis Results.summary]. rewrite walk_details.
  split; [reflexivity|]. split.
  - cbn [list_to_map foldr uncurry fst snd]. apply lookup_insert_eq.
  - rewrite length_map. apply extracted_or_failed.
Qed.

(** X11: under a period (an origin) the result holds exactly the paths of
    the extracted documents classified with it, in corpus order; a label no
    document has is no key of the index, so no group is ever empty. *)
Theorem X11_period_origin_index `{StrMethods} (os_sep : ascii)
        (ET_parse : string -> string + Element) (canon_info : gmap string json)
        (xml_files : list string) (key : string) :
  let r := analyze_buddhist_metadata os_sep ET_parse canon_info xml_files in
  let documents := extracted_documents os_sep ET_parse canon_info xml_files in
  Results.by_period r !! key =
    group_paths (fun m => bool_decide (period_of m = key)) documents /\
  Results.by_origin r !! key =
    group_paths (fun m => bool_decide (origin_of m = key)) documents.
Proof.
  intros r documents. unfold r, analyze_buddhist_metadata.
  cbn [Results.by_period Results.by_origin].
  split; [apply walk_by_period | apply walk_by_origin].
Qed.

(** X12: under a tradition the result holds exactly the paths of the
    extracted documents whose classification includes it, each once per
    document, in corpus order. *)
Theorem X12_tradition_index `{StrMethods} (os_sep : ascii)
        (ET_parse : string -> string + Element) (canon_info : gmap string json)
        (xml_files : list string) (key : string) :
  Results.by_tradition
    (analyze_buddhist_metadata os_sep ET_parse canon_info xml_files) !! key =
  group_paths (fun m => bool_decide (key ∈ traditions_of m))
              (extracted_documents os_sep ET_parse canon_info xml_files).
Proof.
  unfold analyze_buddhist_metadata. cbn [Results.by_tradition].
  apply walk_by_tradition.
Qed.

(** X13: the canon index has no entry under the empty code, and under a
    non-empty code the files of its group are exactly the paths of the
    extracted documents with that canon code, in corpus order. *)
Theorem X13_canon_index `{StrMethods} (os_sep : ascii)
        (ET_parse : string -> string + Element) (canon_info : gmap string json)
        (xml_files : list string) (key : string) :
  CanonGroup.files <$>
    Results.by_canon
      (analyze_buddhist_metadata os_sep ET_parse canon_info xml_files) !! key =
  if Str.truthy key
  then group_paths (fun m => bool_decide (Metadata.canon_code m = Some key))
                   (extracted_documents os_sep ET_parse canon_info xml_files)
  else None.
Proof.
  unfold analyze_buddhist_metadata. cbn [Results.by_canon]. apply walk_by_canon.
Qed.

(** X14: every group of the canon index has at least one file; its period
    tallies and its origin tallies each add up to its number of files, and
    its tradition tallies to at least that number.  Its traditions counter
    is therefore never empty, and [print_buddhist_summary] never falls back
    to [('Unknown', 0)] for the top tradition. *)
Theorem X14_canon_tallies `{StrMethods} (os_sep : ascii)
        (ET_parse : string -> string + Element) (canon_info : gmap string json)
        (xml_files : list string) (key : string) (g : CanonGroup.t) :
  Results.by_canon
    (analyze_buddhist_metadata os_sep ET_parse canon_info xml_files) !! key = Some g ->
  canon_group_consistent g /\ top_tradition_unknown g = false.
Proof.
  unfold analyze_buddhist_metadata. cbn [Results.by_canon]. intros Hg.
  pose proof (walk_by_canon_consistent _ _ _ _ _ _ Hg) as Hc.
  split; [exact Hc|]. destruct Hc as (Hpos & _ & _ & Ht).
  unfold top_tradition_unknown. apply bool_decide_eq_false_2. intros Hempty.
  rewrite Hempty, counter_total_empty in Ht. lia.
Qed.

Lemma X14_canon_tallies_witness :
  exists g,
    Results.by_canon
      (@analyze_buddhist_metadata ascii_str "/" Sample.fs Sample.registry
         ["T/T01/doc.xml"; "bad.xml"; "misc/anonymous.xml"]) !! "T" = Some g /\
    canon_group_consistent g /\ top_tradition_unknown g = false.
Proof.
  eexists. split; [vm_compute; reflexivity|].
  eapply (@X14_canon_tallies ascii_str "/" Sample.fs Sample.registry
            ["T/T01/doc.xml"; "bad.xml"; "misc/anonymous.xml"] "T").
  vm_compute. reflexivity.
Defined.

(** X15: however large the corpus, the result has at most 15 tradition
    groups, 9 period groups and 7 origin groups. *)
Theorem X15_group_count_bounds `{StrMethods} (os_sep : ascii)
        (ET_parse : string -> string + Element) (canon_info : gmap string json)
        (xml_files : list string) :
  let r := analyze_buddhist_metadata os_sep ET_parse canon_info xml_files in
  (size (Results.by_tradition r) <= 15)%nat /\
  (size (Results.by_period r) <= 9)%nat /\
  (size (Results.by_origin r) <= 7)%nat.
Proof.
  intros r. unfold r, analyze_buddhist_metadata.
  cbn [Results.by_tradition Results.by_period Results.by_origin].
  split; [|split].
  - apply (size_bounded _ (map fst TRADITION_CLASSIFICATIONS ++ ["General/Unspecified"])).
    + apply (bool_decide_unpack _). vm_compute. exact I.
    + intros key [paths Hk]. rewrite walk_by_tradition in Hk.
      apply group_paths_Some in Hk. destruct Hk as (_ & m & _ & Hm).
      apply bool_decide_eq_true in Hm. apply list_elem_of_In in Hm.
      exact (classify_tradition_range _ _ _ _ Hm).
  - apply (size_bounded _ (map fst DYNASTY_PERIODS ++ ["Unknown Period"])).
    + apply (bool_decide_unpack _). vm_compute. exact I.
    + intros key [paths Hk]. rewrite walk_by_period in Hk.
      apply group_paths_Some in Hk. destruct Hk as (_ & m & _ & Hm).
      apply bool_decide_eq_true in Hm. subst key. apply classify_period_range.
  - apply (size_bounded _ (map fst GEOGRAPHIC_ORIGINS ++ ["Unknown Origin"])).
    + apply (bool_decide_unpack _). vm_compute. exact I.
    + intros key [paths Hk]. rewrite walk_by_origin in Hk.
      apply group_paths_Some in Hk. destruct Hk as (_ & m & _ & Hm).
      apply bool_decide_eq_true in Hm. subst key. apply classify_geographic_range.
Qed.

Lemma extracted_Permutation `{StrMethods} (os_sep : ascii)
      (ET_parse : string -> string + Element) (canon_info : gmap string json)
      (xml_files xml_files' : list string) :
  Permutation xml_files xml_files' ->
  Permutation (extracted_documents os_sep ET_parse canon_info xml_files)
              (extracted_documents os_sep ET_parse canon_info xml_files').
Proof.
  unfold extracted_documents.
  induction 1 as [|x l l' _ IH|x y l|l l' l'' _ IH1 _ IH2]; cbn [omap list_omap].
  - constructor.
  - destruct (extract_metadata _ _ x _); [now constructor | exact IH].
  - destruct (extract_metadata _ _ x _), (extract_metadata _ _ y _);
      try reflexivity. apply perm_swap.
  - now transitivity
      (omap (fun xml_file =>
               match extract_metadata os_sep ET_parse xml_file canon_info with
               | Extracted m => Some m
               | ExtractionError _ => None
               end) l').
Qed.

(** X16: the order in which the files are walked (the code takes them as
    [rglob] yields them, unsorted) changes no group's membership: for two
    orders of the same corpus each index has the same keys, and under each
    key the same paths up to order. *)
Theorem X16_traversal_order `{StrMethods} (os_sep : ascii)
        (ET_parse : string -> string + Element) (canon_info : gmap string json)
        (xml_files xml_files' : list string) (key : string) :
  Permutation xml_files xml_files' ->
  let r := analyze_buddhist_metadata os_sep ET_parse canon_info xml_files in
  let r' := analyze_buddhist_metadata os_sep ET_parse canon_info xml_files' in
  option_Forall2 Permutation (Results.by_tradition r !! key)
                             (Results.by_tradition r' !! key) /\
  option_Forall2 Permutation (Results.by_period r !! key)
                             (Results.by_period r' !! key) /\
  option_Forall2 Permutation (Results.by_origin r !! key)
                             (Results.by_origin r' !! key) /\
  option_Forall2 Permutation (CanonGroup.files <$> Results.by_canon r !! key)
                             (CanonGroup.files <$> Results.by_canon r' !! key).
Proof.
  intros Hperm r r'. unfold r, r', analyze_buddhist_metadata.
  cbn [Results.by_tradition Results.by_period Results.by_origin Results.by_canon].
  rewrite !walk_by_tradition, !walk_by_period, !walk_by_origin, !walk_by_canon.
  pose proof (extracted_Permutation os_sep ET_parse canon_info _ _ Hperm) as Hdocs.
  repeat split; try (now apply group_paths_Permutation).
  destruct (Str.truthy key); [now apply group_paths_Permutation | constructor].
Qed.

Lemma X16_traversal_order_witness :
  option_Forall2 Permutation
    (Results.by_period
       (@analyze_buddhist_metadata ascii_str "/" Sample.fs Sample.registry
          ["T/T01/doc.xml"; "misc/anonymous.xml"]) !! "Song")
    (Results.by_period
       (@analyze_buddhist_metadata ascii_str "/" Sample.fs Sample.registry
          ["misc/anonymous.xml"; "T/T01/doc.xml"]) !! "Song").
Proof.
  refine (proj1 (proj2 (@X16_traversal_order ascii_str "/" Sample.fs Sample.registry
            ["T/T01/doc.xml"; "misc/anonymous.xml"]
            ["misc/anonymous.xml"; "T/T01/doc.xml"] "Song" _))).
  apply perm_swap.
Defined.

Lemma saved_group_lookup (index : gmap string (list string)) (key : string)
      (g : Saved.group) :
  (save_group <$> index) !! key = Some g ->
  exists paths, index !! key = Some paths /\
                Saved.file_count g = List.length paths /\
                Saved.files g = take 10 paths /\
                List.length (Saved.files g) = Nat.min 10 (List.length paths).
Proof.
  rewrite lookup_fmap. destruct (index !! key) as [paths|]; [|discriminate].
  intros [= <-]. exists paths. cbn [save_group Saved.file_count Saved.files].
  repeat split. apply length_take.
Qed.

(** X17: what is saved for a period.  The saved [file_count] is the number
    of extracted documents of that period, all of them, while the saved file
    list is only the first ten of their paths. *)
Theorem X17_saved_period_group `{StrMethods} (os_sep : ascii)
        (ET_parse : string -> string + Element) (canon_info : gmap string json)
        (xml_files : list string) (key : string) (g : Saved.group) :
  Saved.by_period
    (serializable_results
       (analyze_buddhist_metadata os_sep ET_parse canon_info xml_files)) !! key
    = Some g ->
  let paths :=
    map Metadata.file_path
        (List.filter (fun m => bool_decide (period_of m = key))
                     (extracted_documents os_sep ET_parse canon_info xml_files)) in
  Saved.file_count g = List.length paths /\
  (1 <= Saved.file_count g)%nat /\
  Saved.files g = take 10 paths /\
  List.length (Saved.files g) = Nat.min 10 (Saved.file_count g).
Proof.
  intros Hg paths. unfold serializable_results in Hg. cbn [Saved.by_period] in Hg.
  apply saved_group_lookup in Hg. destruct Hg as (found & Hfound & Hcount & Hfiles & Hlen).
  unfold analyze_buddhist_metadata in Hfound. cbn [Results.by_period] in Hfound.
  rewrite walk_by_period in Hfound.
  pose proof (group_paths_Some _ _ _ Hfound) as [Heq _]. fold paths in Heq. subst found.
  repeat split; try assumption; [|now rewrite Hcount].
  rewrite Hcount. unfold group_paths in Hfound. fold paths in Hfound.
  destruct paths; [discriminate Hfound | simpl; lia].
Qed.

Lemma X17_saved_period_group_witness :
  let g := Saved.mkGroup 1 ["T/T01/doc.xml"] in
  let paths :=
    map Metadata.file_path
        (List.filter (fun m => bool_decide (period_of m = "Song"))
           (@extracted_documents ascii_str "/" Sample.fs Sample.registry
              ["T/T01/doc.xml"; "bad.xml"])) in
  Saved.file_count g = List.length paths /\
  (1 <= Saved.file_count g)%nat /\
  Saved.files g = take 10 paths /\
  List.length (Saved.files g) = Nat.min 10 (Saved.file_count g).
Proof.
  intros g.
  apply (@X17_saved_period_group ascii_str "/" Sample.fs Sample.registry
           ["T/T01/doc.xml"; "bad.xml"] "Song" g).
  vm_compute. reflexivity.
Defined.

(** X18: [generate_sorting_recommendations] measures a period by
    [len(data['files'])], the saved list that holds at most ten paths, and
    prints the period when that exceeds 50; it measures an origin the same
    way against 10.  Fed what [save_buddhist_analysis] saved, neither loop
    ever prints a group, whatever the corpus. *)
Theorem X18_recommendations_list_nothing (r : Results.t)
        (sorted_periods sorted_origins : list (string * Saved.group)) :
  (forall item, In item sorted_periods ->
     Saved.by_period (serializable_results r) !! fst item = Some (snd item)) ->
  (forall item, In item sorted_origins ->
     Saved.by_origin (serializable_results r) !! fst item = Some (snd item)) ->
  listed_groups 50 sorted_periods = [] /\ listed_groups 10 sorted_origins = [].
Proof.
  assert (Hnone : forall threshold (index : gmap string (list string)) items,
             (10 <= threshold)%nat ->
             (forall item, In item items ->
                (save_group <$> index) !! fst item = Some (snd item)) ->
             listed_groups threshold items = []).
  { intros threshold index items Hth Hitems. unfold listed_groups.
    induction items as [|item items IH]; [reflexivity|].
    cbn [omap list_omap].
    destruct (saved_group_lookup index (fst item) (snd item) (Hitems item (or_introl eq_refl)))
      as (paths & _ & _ & _ & Hlen).
    assert (Hlt : (threshold <? List.length (Saved.files (snd item)))%nat = false).
    { apply Nat.ltb_ge. rewrite Hlen. lia. }
    cbv zeta. rewrite Hlt. apply IH. intros it Hin. apply Hitems. now right. }
  intros Hp Ho. split.
  - apply (Hnone 50%nat (Results.by_period r)); [lia | exact Hp].
  - apply (Hnone 10%nat (Results.by_origin r)); [lia | exact Ho].
Qed.

Lemma X18_recommendations_list_nothing_witness :
  listed_groups 50 [("Song", Saved.mkGroup 1 ["T/T01/doc.xml"])] = [] /\
  listed_groups 10 [("Unknown Origin", Saved.mkGroup 1 ["T/T01/doc.xml"])] = [].
Proof.
  apply (X18_recommendations_list_nothing
           (@analyze_buddhist_metadata ascii_str "/" Sample.fs Sample.registry
              ["T/T01/doc.xml"; "bad.xml"])).
  - intros item [<-|[]]. vm_compute. reflexivity.
  - intros item [<-|[]]. vm_compute. reflexivity.
Defined.

(** X19: the keyword collections of the period and origin tables are Python
    sets, enumerated in no fixed order.  Whatever order each set is
    enumerated in, the scan settles on the same label: over any table with
    the same labels in the same order and the same keywords per entry in
    any order, the result is that of [classify_period], resp.
    [classify_geographic]. *)
Theorem X19_set_order_irrelevant
        (periods origins : list (string * list string))
        (author source : string) (titles : list string) :
  Forall2 (fun entry entry' =>
             fst entry = fst entry' /\ Permutation (snd entry) (snd entry'))
          DYNASTY_PERIODS periods ->
  Forall2 (fun entry entry' =>
             fst entry = fst entry' /\ Permutation (snd entry) (snd entry'))
          GEOGRAPHIC_ORIGINS origins ->
  classify_period author source titles =
    default "Unknown Period" (scan_table periods (plain_text author source titles)) /\
  classify_geographic author source titles =
    default "Unknown Origin" (scan_table origins (plain_text author source titles)).
Proof.
  intros Hperiods Horigins.
  rewrite classify_period_is_scan, classify_geographic_is_scan.
  split; f_equal; apply scan_table_entrywise.
  - eapply Forall2_impl; [exact Hperiods|].
    intros entry entry' [Hl Hk]. split; [exact Hl | now apply any_in_Permutation].
  - eapply Forall2_impl; [exact Horigins|].
    intros entry entry' [Hl Hk]. split; [exact Hl | now apply any_in_Permutation].
Qed.

Lemma X19_set_order_irrelevant_witness :
  classify_period "道原" "南宋" [] =
    default "Unknown Period"
      (scan_table
         [ ("Pre-Tang", ["漢"; "魏"; "晉"; "南北朝"; "劉宋"; "南齊"; "梁"; "陳"; "北魏"; "北齊";
                         "北周"; "隋"]);
           ("Tang", ["唐"]);
           ("Song", ["北宋"; "宋"; "南宋"]);
           ("Yuan", ["元"]);
           ("Ming", ["明"]);
           ("Qing", ["清"]);
           ("Modern", ["中華民國"; "民國"; "現代"]);
           ("Contemporary", ["當代"]) ]
         (plain_text "道原" "南宋" [])) /\
  classify_geographic "道原" "南宋" [] =
    default "Unknown Origin"
      (scan_table GEOGRAPHIC_ORIGINS (plain_text "道原" "南宋" [])).
Proof.
  apply X19_set_order_irrelevant.
  - unfold DYNASTY_PERIODS.
    repeat (constructor; [split; [reflexivity|]; cbn [snd];
                          first [reflexivity | apply perm_swap] |]).
    constructor.
  - unfold GEOGRAPHIC_ORIGINS.
    repeat (constructor; [split; reflexivity |]). constructor.
Defined.
